(** * bsl::allocator: the run-time-polymorphic allocator proxy

    A shallow embedding of [bslstl_allocator.h] (class templates
    [bsl::allocator<T>] and [bsl::allocator<void>], with the free comparison
    operators) and of [bsls_util.h] ([bsls::Util::addressOf] and the macro
    [BSLS_UTIL_ADDRESSOF]), followed by the properties of the proxy that the
    specification states. *)

From Stdlib Require Import ZArith Lia Bool List.
From stdpp Require Import base option gmap.
Import ListNotations.

Local Open Scope Z_scope.

(* ===================================================================== *)
(** ** Fixed-width integer types *)
(* ===================================================================== *)

Module IntType.

(** A C++ integer type: its width in bits and its signedness. *)
Record t : Type := mk { bits : positive; is_signed : bool }.

Definition modulus (ty : t) : Z := 2 ^ Z.pos (bits ty).

Definition half_modulus (ty : t) : Z := 2 ^ (Z.pos (bits ty) - 1).

Definition min_value (ty : t) : Z :=
  if is_signed ty then - half_modulus ty else 0.

Definition max_value (ty : t) : Z :=
  if is_signed ty then half_modulus ty - 1 else modulus ty - 1.

Definition in_range (ty : t) (z : Z) : Prop :=
  min_value ty <= z <= max_value ty.

(** Conversion of an integer to the type [ty]: the value is reduced modulo
    [2 ^ bits] into the range of the type (two's complement when signed).
    This is what [size_type(x)] and [std::size_t(x)] do. *)
Definition convert (ty : t) (z : Z) : Z :=
  if is_signed ty
  then (z + half_modulus ty) mod modulus ty - half_modulus ty
  else z mod modulus ty.

(** [~x] computed in type [ty]. *)
Definition lognot (ty : t) (x : Z) : Z := convert ty (Z.lnot x).

(** [x * y] computed in type [ty]: the product wraps around. *)
Definition mul (ty : t) (x y : Z) : Z := convert ty (x * y).

(** [x / y] computed in type [ty]: C++ division truncates toward zero. *)
Definition div (ty : t) (x y : Z) : Z := convert ty (Z.quot x y).

End IntType.

(* ===================================================================== *)
(** ** The platform *)
(* ===================================================================== *)

(** What the headers take from the platform and the build.  The declaration
    of [bslma::Allocator::size_type] is not part of the two components; the
    comment in [allocator<T>::allocate] fixes its width to that of
    [std::size_t], and its signedness is a field here. *)
Record Platform : Type := mkPlatform {
  size_bits         : positive;  (* width of std::size_t *)
  bslma_size_signed : bool;      (* bslma::Allocator::size_type is signed *)
  cmp_msvc          : bool;      (* BSLS_PLATFORM_CMP_MSVC is defined *)
  assert_safe       : bool       (* BSLS_ASSERT_SAFE is active *)
}.

Definition size_t (pf : Platform) : IntType.t :=
  IntType.mk (size_bits pf) false.

Definition bslma_size_type (pf : Platform) : IntType.t :=
  IntType.mk (size_bits pf) (bslma_size_signed pf).

(** The value of [~std::size_t(0)]: all bits set. *)
Definition all_ones (pf : Platform) : Z :=
  IntType.lognot (size_t pf) (IntType.convert (size_t pf) 0).

(* ===================================================================== *)
(** ** Pointers, references and casts *)
(* ===================================================================== *)

Inductive cv : Type := cv_none | cv_const | cv_volatile | cv_const_volatile.

(** [void], the element type of the specialization [allocator<void>] and the
    pointee of [void *]. *)
Inductive void : Type := .

(** A pointer to [cv T]: the address it holds.  The qualifier and the pointee
    type are indices, as in the C++ type. *)
Record Ptr (q : cv) (T : Type) : Type := mkPtr { p_addr : Z }.

(** A reference (an lvalue) of type [cv T]: the storage address of the object
    it designates. *)
Record Ref (q : cv) (T : Type) : Type := mkRef { r_addr : Z }.

Arguments mkPtr {q T} _.
Arguments p_addr {q T} _.
Arguments mkRef {q T} _.
Arguments r_addr {q T} _.

Definition null {q T} : Ptr q T := mkPtr 0.

Definition is_null {q T} (p : Ptr q T) : bool := p_addr p =? 0.

(** Pointer comparison [p == q']: pointers to possibly differently qualified
    versions of a type compare by address. *)
Definition ptr_eqb {q1 q2 T} (p1 : Ptr q1 T) (p2 : Ptr q2 T) : bool :=
  p_addr p1 =? p_addr p2.

(** The built-in unary [&] applied to an lvalue. *)
Definition builtin_addr {q T} (x : Ref q T) : Ptr q T := mkPtr (r_addr x).

(** [reinterpret_cast<q' U&>(x)]: the same storage seen as a [q' U]. *)
Definition reinterpret_cast_ref (q' : cv) (U : Type) {q T} (x : Ref q T)
  : Ref q' U := mkRef (r_addr x).

(** [const_cast<U *>(p)]: only the qualifier changes. *)
Definition const_cast (q' : cv) {q T} (p : Ptr q T) : Ptr q' T :=
  mkPtr (p_addr p).

(** [static_cast<void *>(p)]. *)
Definition static_cast_to_void {q T} (p : Ptr q T) : Ptr q void :=
  mkPtr (p_addr p).

(** [static_cast<q' T *>(p)] from a [void *]; the target may add a
    qualifier. *)
Definition static_cast_from_void (q' : cv) (T : Type) {q} (p : Ptr q void)
  : Ptr q' T := mkPtr (p_addr p).

(** C++ [char]. *)
Definition char : Type := Z.

(* ===================================================================== *)
(** ** Object types *)
(* ===================================================================== *)

(** What the proxy uses of its element type [T]: [sizeof(T)], the copy
    constructor [T(val)], and the unary [operator&] when the type redefines
    it ([None] when it does not and the built-in one applies).  For
    [address] to compile the redefined operator has to yield something
    convertible to a pointer to [T]; the conversion is part of the field. *)
Class ObjectType (T : Type) : Type := {
  sizeof         : positive;
  copy_construct : T -> T;
  operator_amp   : option (forall q : cv, Ref q T -> Ptr q T)
}.

(** The expression [&(x)] on an lvalue of type [T]: overload resolution picks
    the type's own [operator&] when there is one. *)
Definition amp {T} `{ObjectType T} {q} (x : Ref q T) : Ptr q T :=
  match operator_amp with
  | Some f => f q x
  | None => builtin_addr x
  end.

(* ===================================================================== *)
(** ** bsls_util.h *)
(* ===================================================================== *)

Module bsls.

(** [bsls::Util::addressOf]:
    [static_cast<BSLS_TYPE *>(static_cast<void *>(const_cast<char *>(
       &reinterpret_cast<const volatile char&>(obj))))].
    [BSLS_TYPE] is deduced with its qualifier, so the result has the
    qualifier of the argument. *)
Definition Util_addressOf {q T} (obj : Ref q T) : Ptr q T :=
  static_cast_from_void q T
    (static_cast_to_void
      (const_cast cv_none
        (builtin_addr
          (reinterpret_cast_ref cv_const_volatile char obj)))).

(** The macro [BSLS_UTIL_ADDRESSOF(OBJ)]: [Util::addressOf(OBJ)] under
    [BSLS_PLATFORM_CMP_MSVC], [(&(OBJ))] otherwise. *)
Definition BSLS_UTIL_ADDRESSOF (pf : Platform) {T} `{ObjectType T} {q}
    (OBJ : Ref q T) : Ptr q T :=
  if cmp_msvc pf then Util_addressOf OBJ else amp OBJ.

End bsls.

(* ===================================================================== *)
(** ** bslma: the mechanism protocol and the default-mechanism registry *)
(* ===================================================================== *)

Module bslma.

(** How a call of a virtual function of a mechanism ends. *)
Inductive outcome (A : Type) : Type :=
| Returned (a : A)
| Thrown.

Arguments Returned {A} _.
Arguments Thrown {A}.

Section Protocol.

(** The data of mechanism objects. *)
Context {MState : Type}.

(** The protocol [bslma::Allocator]: the two virtual functions of a mechanism
    class, acting on the data of the object.  [allocate] takes a byte count
    of type [bslma::Allocator::size_type] and either returns a [void *] or
    throws. *)
Record vtable : Type := mkVtable {
  v_allocate   : MState -> Z -> outcome (Ptr cv_none void) * MState;
  v_deallocate : MState -> Ptr cv_none void -> MState
}.

(** An object of a class derived from [bslma::Allocator]. *)
Record Allocator : Type := mkAllocator {
  m_vptr : vtable;
  m_data : MState
}.

End Protocol.

Arguments vtable : clear implicits.
Arguments Allocator : clear implicits.

Section Default.

Context {MState : Type}.

(** The default-mechanism registry is not part of the two components: its
    states, and what [bslma::Default::defaultAllocator()] reads from a state,
    are parameters. *)
Context {Registry : Type}.
Context (defaultAllocator : Registry -> Ptr cv_none (Allocator MState)).

(** Modelled from the spec: [bslma::Default::allocator(basicAllocator)],
    whose definition is in [bslma_default.h], outside the two components.
    The spec has the constructor from a mechanism reference bind to it when
    it is non-null and fall back to the registry's current default
    otherwise. *)
Definition Default_allocator (g : Registry)
    (basicAllocator : Ptr cv_none (Allocator MState))
  : Ptr cv_none (Allocator MState) :=
  if is_null basicAllocator then defaultAllocator g else basicAllocator.

End Default.

End bslma.

(* ===================================================================== *)
(** ** bslstl_allocator.h *)
(* ===================================================================== *)

Module bsl.

(** How a call of a member function of the proxy ends: it returns, it is
    left by the exception of the mechanism, [BSLS_ASSERT_SAFE] fails, or
    [d_mechanism] does not point to a mechanism object (undefined
    behaviour). *)
Inductive result (S A : Type) : Type :=
| Normal (a : A) (s : S)
| Exceptional (s : S)
| AssertionFailure
| Undefined.

Arguments Normal {S A} _ _.
Arguments Exceptional {S A} _.
Arguments AssertionFailure {S A}.
Arguments Undefined {S A}.

(** Sequencing of two calls. *)
Definition bind {S A B} (c : S -> result S A) (k : A -> S -> result S B)
  : S -> result S B :=
  fun s =>
    match c s with
    | Normal a s' => k a s'
    | Exceptional s' => Exceptional s'
    | AssertionFailure => AssertionFailure
    | Undefined => Undefined
    end.

Section Allocator.

Context {MState : Type}.
Context {Registry : Type}.
Context (defaultAllocator : Registry -> Ptr cv_none (bslma.Allocator MState)).
Context (pf : Platform).

(** [BloombergLP::bslma::Allocator *] *)
Definition MechPtr : Type := Ptr cv_none (bslma.Allocator MState).

(** [template <class T> class allocator]: the one data member. *)
Record allocator (T : Type) : Type := mk_allocator {
  d_mechanism : MechPtr
}.

(** [template <> class allocator<void>]: the one data member. *)
Record allocator_void : Type := mk_allocator_void {
  d_mechanism_void : MechPtr
}.

Arguments mk_allocator {T} _.
Arguments d_mechanism {T} _.

(** The instantiations of the template: what the member templates and the
    free operators use of an [allocator<U>] is its [mechanism()]. *)
Class Proxy (A : Type) : Type := { mechanism : A -> MechPtr }.

(** [allocator<T>::mechanism] *)
#[global] Instance allocator_Proxy (T : Type) : Proxy (allocator T) :=
  {| mechanism := fun self => d_mechanism self |}.

(** [allocator<void>::mechanism] *)
#[global] Instance allocator_void_Proxy : Proxy allocator_void :=
  {| mechanism := fun self => d_mechanism_void self |}.

(** *** Creators of [allocator<T>] *)

(** [allocator<T>::allocator()] *)
Definition allocator_ctor (T : Type) (g : Registry) : allocator T :=
  {| d_mechanism := defaultAllocator g |}.

(** [allocator<T>::allocator(bslma::Allocator *mechanism)] *)
Definition allocator_ctor_mechanism (T : Type) (g : Registry)
    (mechanism : MechPtr) : allocator T :=
  {| d_mechanism := bslma.Default_allocator defaultAllocator g mechanism |}.

(** [allocator<T>::allocator(const allocator& rhs)] *)
Definition allocator_ctor_copy {T : Type} (rhs : allocator T) : allocator T :=
  {| d_mechanism := mechanism rhs |}.

(** [template <class U> allocator<T>::allocator(const allocator<U>& rhs)] *)
Definition allocator_ctor_convert (T : Type) {A : Type} `{Proxy A} (rhs : A)
  : allocator T :=
  {| d_mechanism := mechanism rhs |}.

(** The compiler-generated [allocator& operator=(const allocator& rhs)]:
    member-wise assignment; the result is the new value of [*this]. *)
Definition allocator_assign {T : Type} (self rhs : allocator T)
  : allocator T :=
  {| d_mechanism := d_mechanism rhs |}.

(** *** Creators of [allocator<void>] *)

(** [allocator<void>::allocator()] *)
Definition allocator_void_ctor (g : Registry) : allocator_void :=
  {| d_mechanism_void := defaultAllocator g |}.

(** [allocator<void>::allocator(bslma::Allocator *mechanism)] *)
Definition allocator_void_ctor_mechanism (g : Registry)
    (mechanism : MechPtr) : allocator_void :=
  {| d_mechanism_void :=
       bslma.Default_allocator defaultAllocator g mechanism |}.

(** [allocator<void>::allocator(const allocator<void>& rhs)] *)
Definition allocator_void_ctor_copy (rhs : allocator_void) : allocator_void :=
  {| d_mechanism_void := mechanism rhs |}.

(** [template <class U> allocator<void>::allocator(const allocator<U>& rhs)] *)
Definition allocator_void_ctor_convert {A : Type} `{Proxy A} (rhs : A)
  : allocator_void :=
  {| d_mechanism_void := mechanism rhs |}.

(** The compiler-generated assignment of [allocator<void>]. *)
Definition allocator_void_assign (self rhs : allocator_void)
  : allocator_void :=
  {| d_mechanism_void := d_mechanism_void rhs |}.

(** *** Free operators *)

(** [operator==(const allocator<T1>& lhs, const allocator<T2>& rhs)] *)
Definition operator_eq {A B : Type} `{Proxy A} `{Proxy B} (lhs : A) (rhs : B)
  : bool :=
  ptr_eqb (mechanism lhs) (mechanism rhs).

(** [operator!=(const allocator<T1>& lhs, const allocator<T2>& rhs)] *)
Definition operator_ne {A B : Type} `{Proxy A} `{Proxy B} (lhs : A) (rhs : B)
  : bool :=
  negb (operator_eq lhs rhs).

(** [operator==(const allocator<T>& lhs, const bslma::Allocator *rhs)] *)
Definition operator_eq_mechanism_r {A : Type} `{Proxy A} (lhs : A)
    (rhs : Ptr cv_const (bslma.Allocator MState)) : bool :=
  ptr_eqb (mechanism lhs) rhs.

(** [operator!=(const allocator<T>& lhs, const bslma::Allocator *rhs)] *)
Definition operator_ne_mechanism_r {A : Type} `{Proxy A} (lhs : A)
    (rhs : Ptr cv_const (bslma.Allocator MState)) : bool :=
  negb (operator_eq_mechanism_r lhs rhs).

(** [operator==(const bslma::Allocator *lhs, const allocator<T>& rhs)] *)
Definition operator_eq_mechanism_l {A : Type} `{Proxy A}
    (lhs : Ptr cv_const (bslma.Allocator MState)) (rhs : A) : bool :=
  ptr_eqb lhs (mechanism rhs).

(** [operator!=(const bslma::Allocator *lhs, const allocator<T>& rhs)] *)
Definition operator_ne_mechanism_l {A : Type} `{Proxy A}
    (lhs : Ptr cv_const (bslma.Allocator MState)) (rhs : A) : bool :=
  negb (operator_eq_mechanism_l lhs rhs).

(** *** The world the member functions act on *)

(** A call that the proxy makes through [d_mechanism]. *)
Inductive MechCall : Type :=
| CallAllocate (m : MechPtr) (size : Z)
| CallDeallocate (m : MechPtr) (address : Ptr cv_none void).

(** The mechanism objects by address, the calls made through proxies so far
    (oldest first), and the objects of type [T] that are alive, by
    address. *)
Record World (T : Type) : Type := mkWorld {
  mechanisms : gmap Z (bslma.Allocator MState);
  calls      : list MechCall;
  objects    : gmap Z T
}.

Arguments mkWorld {T} _ _ _.
Arguments mechanisms {T} _.
Arguments calls {T} _.
Arguments objects {T} _.

(** A non-[const] member function of [allocator<T>] with result [A]: it acts
    on [*this] and on the world. *)
Definition Method (T A : Type) : Type :=
  allocator T * World T -> result (allocator T * World T) A.

Section Members.

Context {T : Type} `{ObjectType T}.

(** *** Accessors *)

(** [static const bool BSLMA_SIZE_IS_SIGNED =
       ~bslma::Allocator::size_type(0) < 0;] *)
Definition BSLMA_SIZE_IS_SIGNED : bool :=
  IntType.lognot (bslma_size_type pf)
    (IntType.convert (bslma_size_type pf) 0) <? 0.

(** [static const std::size_t MAX_NUM_BYTES =
       ~std::size_t(0) / (BSLMA_SIZE_IS_SIGNED ? 2 : 1);] *)
Definition MAX_NUM_BYTES : Z :=
  IntType.div (size_t pf)
    (IntType.lognot (size_t pf) (IntType.convert (size_t pf) 0))
    (if BSLMA_SIZE_IS_SIGNED then 2 else 1).

(** [static const std::size_t MAX_NUM_ELEMENTS =
       std::size_t(MAX_NUM_BYTES) / sizeof(T);] *)
Definition MAX_NUM_ELEMENTS : Z :=
  IntType.div (size_t pf)
    (IntType.convert (size_t pf) MAX_NUM_BYTES) (Z.pos sizeof).

(** [allocator<T>::max_size] *)
Definition max_size (self : allocator T) : Z := MAX_NUM_ELEMENTS.

(** [allocator<T>::address(reference x)] *)
Definition address (self : allocator T) (x : Ref cv_none T)
  : Ptr cv_none T :=
  bsls.BSLS_UTIL_ADDRESSOF pf x.

(** [allocator<T>::address(const_reference x)] *)
Definition address_const (self : allocator T) (x : Ref cv_const T)
  : Ptr cv_const T :=
  bsls.BSLS_UTIL_ADDRESSOF pf x.

(** *** Manipulators *)

(** The argument of the call in [allocate]:
    [bslma::Allocator::size_type(n * sizeof(T))], the product being computed
    in [std::size_t]. *)
Definition allocate_size (n : Z) : Z :=
  IntType.convert (bslma_size_type pf)
    (IntType.mul (size_t pf) n (Z.pos sizeof)).

(** [allocator<T>::allocate(size_type n, const void *hint)] *)
Definition allocate (n : Z) (hint : Ptr cv_const void)
  : Method T (Ptr cv_none T) :=
  fun '(self, w) =>
    if assert_safe pf && negb (n <=? max_size self)
    then AssertionFailure
    else
      match mechanisms w !! p_addr (d_mechanism self) with
      | None => Undefined
      | Some m =>
          let size := allocate_size n in
          let '(r, data') :=
            bslma.v_allocate (bslma.m_vptr m) (bslma.m_data m) size in
          let w' :=
            {| mechanisms :=
                 <[p_addr (d_mechanism self) :=
                     bslma.mkAllocator (bslma.m_vptr m) data']>
                   (mechanisms w);
               calls := calls w ++ [CallAllocate (d_mechanism self) size];
               objects := objects w |} in
          match r with
          | bslma.Returned p =>
              Normal (static_cast_from_void cv_none T p) (self, w')
          | bslma.Thrown => Exceptional (self, w')
          end
      end.

(** [allocator<T>::deallocate(pointer p, size_type n)] *)
Definition deallocate (p : Ptr cv_none T) (n : Z) : Method T unit :=
  fun '(self, w) =>
    match mechanisms w !! p_addr (d_mechanism self) with
    | None => Undefined
    | Some m =>
        let address := static_cast_to_void p in
        let data' :=
          bslma.v_deallocate (bslma.m_vptr m) (bslma.m_data m) address in
        Normal tt
          (self,
           {| mechanisms :=
                <[p_addr (d_mechanism self) :=
                    bslma.mkAllocator (bslma.m_vptr m) data']>
                  (mechanisms w);
              calls := calls w ++ [CallDeallocate (d_mechanism self) address];
              objects := objects w |})
    end.

(** [allocator<T>::construct(pointer p, const T& val)]:
    [new(static_cast<void*>(p)) T(val);] *)
Definition construct (p : Ptr cv_none T) (val : T) : Method T unit :=
  fun '(self, w) =>
    Normal tt
      (self,
       {| mechanisms := mechanisms w;
          calls := calls w;
          objects :=
            <[p_addr (static_cast_to_void p) := copy_construct val]>
              (objects w) |}).

(** [allocator<T>::destroy(pointer p)]: [p->~T();] *)
Definition destroy (p : Ptr cv_none T) : Method T unit :=
  fun '(self, w) =>
    Normal tt
      (self,
       {| mechanisms := mechanisms w;
          calls := calls w;
          objects := delete (p_addr p) (objects w) |}).

End Members.

(** *** The life of a proxy *)

(** A proxy of either class. *)
Inductive AnyProxy : Type :=
| ProxyOf (T : Type) (a : allocator T)
| ProxyOfVoid (a : allocator_void).

Definition AnyProxy_mechanism (x : AnyProxy) : MechPtr :=
  match x with
  | ProxyOf _ a => mechanism a
  | ProxyOfVoid a => mechanism a
  end.

(** The state in which a call leaves [*this] and the world, when it comes
    back to the caller. *)
Definition state_after {S A} (r : result S A) : option S :=
  match r with
  | Normal _ s => Some s
  | Exceptional s => Some s
  | AssertionFailure => None
  | Undefined => None
  end.

(** The values a proxy object can hold: the value one of the four
    constructors of its class gives it, the value an assignment gives it,
    and the value a manipulator leaves in it.  The registry state [g] and the
    world [w] are those at the time of the call. *)
Inductive constructed : AnyProxy -> Prop :=
| by_ctor T g :
    constructed (ProxyOf T (allocator_ctor T g))
| by_ctor_mechanism T g m :
    constructed (ProxyOf T (allocator_ctor_mechanism T g m))
| by_ctor_copy T rhs :
    constructed (ProxyOf T rhs) ->
    constructed (ProxyOf T (allocator_ctor_copy rhs))
| by_ctor_convert T U rhs :
    constructed (ProxyOf U rhs) ->
    constructed (ProxyOf T (allocator_ctor_convert T rhs))
| by_ctor_convert_from_void T rhs :
    constructed (ProxyOfVoid rhs) ->
    constructed (ProxyOf T (allocator_ctor_convert T rhs))
| by_assign T self rhs :
    constructed (ProxyOf T self) ->
    constructed (ProxyOf T rhs) ->
    constructed (ProxyOf T (allocator_assign self rhs))
| by_void_ctor g :
    constructed (ProxyOfVoid (allocator_void_ctor g))
| by_void_ctor_mechanism g m :
    constructed (ProxyOfVoid (allocator_void_ctor_mechanism g m))
| by_void_ctor_copy rhs :
    constructed (ProxyOfVoid rhs) ->
    constructed (ProxyOfVoid (allocator_void_ctor_copy rhs))
| by_void_ctor_convert U rhs :
    constructed (ProxyOf U rhs) ->
    constructed (ProxyOfVoid (allocator_void_ctor_convert rhs))
| by_void_assign self rhs :
    constructed (ProxyOfVoid self) ->
    constructed (ProxyOfVoid rhs) ->
    constructed (ProxyOfVoid (allocator_void_assign self rhs))
| after_allocate T (OT : ObjectType T) self w n hint self' w' :
    constructed (ProxyOf T self) ->
    state_after (allocate n hint (self, w)) = Some (self', w') ->
    constructed (ProxyOf T self')
| after_deallocate T (OT : ObjectType T) self w p n self' w' :
    constructed (ProxyOf T self) ->
    state_after (deallocate p n (self, w)) = Some (self', w') ->
    constructed (ProxyOf T self')
| after_construct T (OT : ObjectType T) self w p val self' w' :
    constructed (ProxyOf T self) ->
    state_after (construct p val (self, w)) = Some (self', w') ->
    constructed (ProxyOf T self')
| after_destroy T (OT : ObjectType T) self w p self' w' :
    constructed (ProxyOf T self) ->
    state_after (destroy p (self, w)) = Some (self', w') ->
    constructed (ProxyOf T self').

End Allocator.

Arguments Normal {S A} _ _.
Arguments Exceptional {S A} _.
Arguments AssertionFailure {S A}.
Arguments Undefined {S A}.
Arguments mk_allocator {MState T} _.
Arguments d_mechanism {MState T} _.
Arguments mkWorld {MState T} _ _ _.
Arguments mechanisms {MState T} _.
Arguments calls {MState T} _.
Arguments objects {MState T} _.

End bsl.

(** The world after the mechanism object [obj] at [m] has served a call [c]
    that left its data as [data']. *)
Definition world_after_call {MState T : Type} (w : bsl.World T)
    (m : bsl.MechPtr (MState:=MState)) (obj : bslma.Allocator MState)
    (data' : MState) (c : bsl.MechCall) : bsl.World T :=
  {| bsl.mechanisms :=
       <[p_addr m := bslma.mkAllocator (bslma.m_vptr obj) data']>
         (bsl.mechanisms w);
     bsl.calls := bsl.calls w ++ [c];
     bsl.objects := bsl.objects w |}.

(** What a call has done to the mechanisms, for a caller that only looks at
    them: the mechanism objects and the calls made so far, when the call
    comes back. *)
Definition mechanism_effect {MState T A : Type}
    (r : bsl.result (bsl.allocator (MState:=MState) T * bsl.World T) A)
  : option (gmap Z (bslma.Allocator MState) * list bsl.MechCall) :=
  match bsl.state_after r with
  | Some (_, w) => Some (bsl.mechanisms w, bsl.calls w)
  | None => None
  end.

(* ===================================================================== *)
(** ** Concrete platforms, element types and mechanisms *)
(* ===================================================================== *)

Module Examples.

(** A 64-bit UNIX build with a signed [bslma::Allocator::size_type] and
    safe-mode assertions. *)
Definition unix64 : Platform :=
  {| size_bits := 64; bslma_size_signed := true;
     cmp_msvc := false; assert_safe := true |}.

(** A 32-bit Microsoft build. *)
Definition msvc32 : Platform :=
  {| size_bits := 32; bslma_size_signed := true;
     cmp_msvc := true; assert_safe := false |}.

(** A build where the count type of the mechanism is unsigned. *)
Definition unsigned64 : Platform :=
  {| size_bits := 64; bslma_size_signed := false;
     cmp_msvc := false; assert_safe := true |}.

(** [int]: four bytes, copied bit-wise, built-in [&]. *)
Definition int : Type := Z.

#[global] Instance int_ObjectType : ObjectType int :=
  {| sizeof := 4; copy_construct := fun v => v; operator_amp := None |}.

(** A one-byte element type. *)
Definition byte : Type := Z.

Definition byte_ObjectType : ObjectType byte :=
  {| sizeof := 1; copy_construct := fun v => v; operator_amp := None |}.

(** A class that redefines the address-of operation so that nobody gets at
    its storage:
    [struct Guarded { int d_v; Guarded *operator&() const { return 0; } };] *)
Record Guarded : Type := mkGuarded { d_v : Z }.

#[global] Instance Guarded_ObjectType : ObjectType Guarded :=
  {| sizeof := 4;
     copy_construct := fun v => mkGuarded (d_v v);
     operator_amp := Some (fun q _ => null) |}.

(** [my_CountingAllocator] of the usage example of [bslstl_allocator.h]: the
    number of blocks outstanding, and the global [operator new] as a bump
    pointer. *)
Record Counting : Type := mkCounting {
  d_blocksOutstanding : Z;
  heap_top            : Z
}.

(** [my_CountingAllocator::allocate]:
    [++d_blocksOutstanding; return operator new(size);] *)
Definition Counting_allocate (c : Counting) (size : Z)
  : bslma.outcome (Ptr cv_none void) * Counting :=
  (bslma.Returned (mkPtr (heap_top c)),
   {| d_blocksOutstanding := d_blocksOutstanding c + 1;
      heap_top := heap_top c + Z.max size 1 |}).

(** [my_CountingAllocator::deallocate]:
    [--d_blocksOutstanding; operator delete(address);] *)
Definition Counting_deallocate (c : Counting) (address : Ptr cv_none void)
  : Counting :=
  {| d_blocksOutstanding := d_blocksOutstanding c - 1;
     heap_top := heap_top c |}.

Definition Counting_vtable : bslma.vtable Counting :=
  {| bslma.v_allocate := Counting_allocate;
     bslma.v_deallocate := Counting_deallocate |}.

(** [my_CountingAllocator::my_CountingAllocator()] *)
Definition Counting_ctor : bslma.Allocator Counting :=
  {| bslma.m_vptr := Counting_vtable;
     bslma.m_data := {| d_blocksOutstanding := 0; heap_top := 65536 |} |}.

(** A registry with one state, whose default mechanism lives at address
    4096. *)
Definition registry1 : unit -> Ptr cv_none (bslma.Allocator Counting) :=
  fun _ => mkPtr 4096.

(** Two mechanism objects: the default one at 4096 and [countingAlloc] at
    8192. *)
Definition world0 (T : Type) : bsl.World (MState:=Counting) T :=
  {| bsl.mechanisms := <[4096 := Counting_ctor]> (<[8192 := Counting_ctor]> ∅);
     bsl.calls := [];
     bsl.objects := ∅ |}.

End Examples.

(* ===================================================================== *)
(** ** my_FixedSizeArray, the container of the usage example *)
(* ===================================================================== *)

(** What [my_FixedSizeArray<T, ALLOC>] uses of its element type beside what
    the proxy uses: the default constructor [T()] and [operator!=]. *)
Class ArrayElement (T : Type) : Type := {
  T_default     : T;
  T_operator_ne : T -> T -> bool
}.

Module my_FixedSizeArray.

Section Loop.

Context {S : Type}.

(** [for (int i = first; i < first + count; ++i) { body(i) }]: the body is
    run for [count] consecutive values of [i]; the loop is left as soon as a
    run of the body does not return. *)
Fixpoint for_loop (count : nat) (i : Z)
    (body : Z -> S -> bsl.result S unit) : S -> bsl.result S unit :=
  match count with
  | O => fun s => bsl.Normal tt s
  | Datatypes.S k => bsl.bind (body i) (fun _ => for_loop k (i + 1) body)
  end.

End Loop.

Section Array.

Context {MState : Type}.
Context (pf : Platform).
Context {T : Type} `{ObjectType T} `{ArrayElement T}.

Local Abbreviation Alloc := (bsl.allocator (MState:=MState) T).
Local Abbreviation World := (bsl.World (MState:=MState) T).

(** The data of a [my_FixedSizeArray<T, bsl::allocator<T> >]; [d_length] is
    an [int]. *)
Record t : Type := mk {
  d_allocator : Alloc;
  d_length    : Z;
  d_array     : Ptr cv_none T
}.

(** The lvalue [array[i]] for a pointer [array] to [T]. *)
Definition subscript (array : Ptr cv_none T) (i : Z) : Ref cv_none T :=
  mkRef (p_addr array + i * Z.pos sizeof).

(** What a member function hands back to its caller, from what the calls
    on [d_allocator] inside it gave. *)
Definition returning {A B : Type} (f : A -> Alloc -> B)
    (r : bsl.result (Alloc * World) A)
  : bsl.result World B :=
  match r with
  | bsl.Normal a (alloc, w) => bsl.Normal (f a alloc) w
  | bsl.Exceptional (_, w) => bsl.Exceptional w
  | bsl.AssertionFailure => bsl.AssertionFailure
  | bsl.Undefined => bsl.Undefined
  end.

(** [my_FixedSizeArray(int length, const ALLOC& alloc)]:
    [d_allocator(alloc), d_length(length)], then
    [d_array = d_allocator.allocate(d_length);] and
    [d_allocator.construct(&d_array[i], T());] for each [i]. *)
Definition ctor (length : Z) (alloc : Alloc)
  : World -> bsl.result (World) t :=
  fun w =>
    let d_allocator := bsl.allocator_ctor_copy alloc in
    let d_length := length in
    returning
      (fun d_array d_allocator' =>
         {| d_allocator := d_allocator';
            d_length := d_length;
            d_array := d_array |})
      (bsl.bind
         (bsl.allocate pf (IntType.convert (size_t pf) d_length) null)
         (fun d_array =>
            bsl.bind
              (for_loop (Z.to_nat d_length) 0
                 (fun i =>
                    bsl.construct (amp (subscript d_array i)) T_default))
              (fun _ s => bsl.Normal d_array s))
         (d_allocator, w)).

(** The value of the object that the lvalue [x] designates, when there is
    one; reading where no object lives is undefined. *)
Definition read (x : Ref cv_none T) (k : T -> bsl.Method (MState:=MState) T unit)
  : bsl.Method (MState:=MState) T unit :=
  fun '(alloc, w) =>
    match bsl.objects w !! r_addr x with
    | Some v => k v (alloc, w)
    | None => bsl.Undefined
    end.

(** [my_FixedSizeArray(const my_FixedSizeArray& rhs, const ALLOC& alloc)]:
    [d_allocator(alloc), d_length(rhs.d_length)], then
    [d_array = d_allocator.allocate(d_length);] and
    [d_allocator.construct(&d_array[i], rhs.d_array[i]);] for each [i]. *)
Definition ctor_copy (rhs : t) (alloc : Alloc)
  : World -> bsl.result (World) t :=
  fun w =>
    let d_allocator := bsl.allocator_ctor_copy alloc in
    let d_length := d_length rhs in
    returning
      (fun d_array0 d_allocator' =>
         {| d_allocator := d_allocator';
            d_length := d_length;
            d_array := d_array0 |})
      (bsl.bind
         (bsl.allocate pf (IntType.convert (size_t pf) d_length) null)
         (fun d_array0 =>
            bsl.bind
              (for_loop (Z.to_nat d_length) 0
                 (fun i =>
                    read (subscript (d_array rhs) i)
                      (fun val =>
                         bsl.construct (amp (subscript d_array0 i)) val)))
              (fun _ s => bsl.Normal d_array0 s))
         (d_allocator, w)).

(** [~my_FixedSizeArray()]: [d_allocator.destroy(&d_array[i]);] for each
    [i], then [d_allocator.deallocate(d_array, d_length);]. *)
Definition dtor (self : t) : World -> bsl.result (World) unit :=
  fun w =>
    returning (fun _ _ => tt)
      (bsl.bind
         (for_loop (Z.to_nat (d_length self)) 0
            (fun i => bsl.destroy (amp (subscript (d_array self) i))))
         (fun _ =>
            bsl.deallocate (d_array self)
              (IntType.convert (size_t pf) (d_length self)))
         (d_allocator self, w)).

(** [operator[](int i)]: [return d_array[i];] *)
Definition operator_subscript (self : t) (i : Z) : Ref cv_none T :=
  subscript (d_array self) i.

(** [length()] *)
Definition length (self : t) : Z := d_length self.

(** [allocator()] *)
Definition allocator (self : t) : Alloc := d_allocator self.

(** The loop of [operator==]:
    [if (lhs[i] != rhs[i]) { return false; }] for each [i], then
    [return true;].  [None] when an element that is read is not alive. *)
Fixpoint elements_equal (w : World) (lhs rhs : t)
    (count : nat) (i : Z) : option bool :=
  match count with
  | O => Some true
  | Datatypes.S k =>
      match bsl.objects w !! r_addr (operator_subscript lhs i),
            bsl.objects w !! r_addr (operator_subscript rhs i) with
      | Some x, Some y =>
          if T_operator_ne x y then Some false
          else elements_equal w lhs rhs k (i + 1)
      | _, _ => None
      end
  end.

(** [operator==(const my_FixedSizeArray& lhs, const my_FixedSizeArray& rhs)] *)
Definition operator_eq (lhs rhs : t) (w : World)
  : option bool :=
  if negb (length lhs =? length rhs) then Some false
  else elements_equal w lhs rhs (Z.to_nat (length lhs)) 0.

End Array.

Arguments t {MState} T.

End my_FixedSizeArray.

(** [int] as an element of the array: [int()] is zero. *)
#[global] Instance int_ArrayElement : ArrayElement Examples.int :=
  {| T_default := 0; T_operator_ne := fun x y => negb (x =? y) |}.

Module ArrayExamples.

Import Examples.

(** A mechanism class whose [allocate] always throws, as a mechanism that
    has run out of memory does; it counts like [my_CountingAllocator]
    otherwise. *)
Definition Exhausted_vtable : bslma.vtable Counting :=
  {| bslma.v_allocate := fun c _ => (bslma.Thrown, c);
     bslma.v_deallocate := Counting_deallocate |}.

(** [countingAlloc] of the usage example, at address 8192. *)
Definition countingAlloc : Ptr cv_none (bslma.Allocator Counting) :=
  mkPtr 8192.

(** The default mechanism at 4096 and [countingAlloc] at 8192, each handing
    out memory of its own, an exhausted mechanism at 12288, and two [int]s
    alive at 1000 and 1004. *)
Definition world1 : bsl.World (MState:=Counting) int :=
  {| bsl.mechanisms :=
       <[4096 := bslma.mkAllocator Counting_vtable (mkCounting 0 131072)]>
         (<[8192 := Counting_ctor]>
            (<[12288 := bslma.mkAllocator Exhausted_vtable (mkCounting 0 0)]>
               ∅));
     bsl.calls := [];
     bsl.objects := <[1000 := 1]> (<[1004 := 2]> ∅) |}.

(** An array of the two [int]s at 1000, with a proxy of the default
    mechanism. *)
Definition a1 : my_FixedSizeArray.t (MState:=Counting) int :=
  {| my_FixedSizeArray.d_allocator := bsl.allocator_ctor registry1 int tt;
     my_FixedSizeArray.d_length := 2;
     my_FixedSizeArray.d_array := mkPtr 1000 |}.

(** The values of the elements of [a1]. *)
Definition a1_values (i : Z) : int := i + 1.

End ArrayExamples.

(** [my_CountingAllocator::blocksOutstanding()] of the counting mechanism
    at address [m] of a world, when there is a mechanism object there. *)
Definition blocksOutstanding_at {T : Type}
    (w : bsl.World (MState:=Examples.Counting) T) (m : Z) : option Z :=
  (fun obj => Examples.d_blocksOutstanding (bslma.m_data obj))
    <$> bsl.mechanisms w !! m.

(* ===================================================================== *)
(** ** Integer arithmetic of the size types *)
(* ===================================================================== *)

Section IntTypeFacts.

Variable ty : IntType.t.

Lemma modulus_double : IntType.modulus ty = 2 * IntType.half_modulus ty.
Proof.
  unfold IntType.modulus, IntType.half_modulus.
  rewrite <- Z.pow_succ_r by lia. f_equal. lia.
Qed.

Lemma half_modulus_pos : 0 < IntType.half_modulus ty.
Proof. unfold IntType.half_modulus. apply Z.pow_pos_nonneg; lia. Qed.

Lemma modulus_pos : 0 < IntType.modulus ty.
Proof. rewrite modulus_double. pose proof half_modulus_pos. lia. Qed.

Lemma min_le_max : IntType.min_value ty <= 0 <= IntType.max_value ty.
Proof.
  unfold IntType.min_value, IntType.max_value.
  pose proof half_modulus_pos. pose proof modulus_pos.
  destruct (IntType.is_signed ty); lia.
Qed.

(** A value of the type is left alone by the conversion to the type. *)
Lemma convert_in_range (z : Z) :
  IntType.in_range ty z -> IntType.convert ty z = z.
Proof.
  unfold IntType.in_range, IntType.min_value, IntType.max_value,
    IntType.convert.
  pose proof modulus_double. pose proof half_modulus_pos.
  destruct (IntType.is_signed ty); intros Hz.
  - rewrite Z.mod_small by lia. lia.
  - apply Z.mod_small. lia.
Qed.

(** [~0] is [-1] in a signed type and the largest value in an unsigned
    one. *)
Lemma lognot_zero :
  IntType.lognot ty (IntType.convert ty 0) =
  if IntType.is_signed ty then -1 else IntType.modulus ty - 1.
Proof.
  pose proof modulus_double. pose proof half_modulus_pos.
  pose proof min_le_max.
  unfold IntType.lognot.
  rewrite (convert_in_range 0) by exact min_le_max.
  change (Z.lnot 0) with (-1).
  unfold IntType.convert.
  destruct (IntType.is_signed ty).
  - rewrite Z.mod_small by lia. lia.
  - replace (-1) with (-1 * IntType.modulus ty + (IntType.modulus ty - 1))
      by lia.
    rewrite Z.add_comm, Z.mod_add by lia.
    apply Z.mod_small. lia.
Qed.

End IntTypeFacts.

Section MaxSizeFacts.

Context {MState : Type}.
Variable pf : Platform.

Lemma BSLMA_SIZE_IS_SIGNED_eq :
  bsl.BSLMA_SIZE_IS_SIGNED pf = bslma_size_signed pf.
Proof.
  unfold bsl.BSLMA_SIZE_IS_SIGNED. rewrite lognot_zero.
  pose proof (modulus_pos (bslma_size_type pf)).
  simpl. destruct (bslma_size_signed pf); [reflexivity | lia].
Qed.

(** The largest byte count is the largest value of the count type of the
    mechanism, whatever its signedness. *)
Lemma MAX_NUM_BYTES_eq :
  bsl.MAX_NUM_BYTES pf = IntType.max_value (bslma_size_type pf).
Proof.
  unfold bsl.MAX_NUM_BYTES.
  rewrite BSLMA_SIZE_IS_SIGNED_eq, lognot_zero. simpl.
  pose proof (modulus_double (size_t pf)) as Hd.
  pose proof (half_modulus_pos (size_t pf)) as Hh.
  unfold IntType.div, IntType.max_value, IntType.modulus,
    IntType.half_modulus in *. simpl in *.
  destruct (bslma_size_signed pf).
  - rewrite Z.quot_div_nonneg by lia.
    assert ((2 ^ Z.pos (size_bits pf) - 1) / 2
            = 2 ^ (Z.pos (size_bits pf) - 1) - 1) as ->.
    { symmetry. apply Z.div_unique with (r := 1); lia. }
    apply (convert_in_range (size_t pf)).
    unfold IntType.in_range, IntType.min_value, IntType.max_value,
      IntType.modulus. simpl. lia.
  - rewrite Z.quot_1_r.
    apply (convert_in_range (size_t pf)).
    unfold IntType.in_range, IntType.min_value, IntType.max_value,
      IntType.modulus. simpl. lia.
Qed.

Lemma max_value_bslma_le :
  0 <= IntType.max_value (bslma_size_type pf)
    <= IntType.max_value (size_t pf).
Proof.
  pose proof (modulus_double (size_t pf)) as Hd.
  pose proof (half_modulus_pos (size_t pf)) as Hh.
  unfold IntType.max_value, IntType.modulus, IntType.half_modulus in *.
  simpl in *. destruct (bslma_size_signed pf); lia.
Qed.

Lemma in_range_size_t (z : Z) :
  0 <= z <= IntType.max_value (size_t pf) -> IntType.in_range (size_t pf) z.
Proof. intros Hz. split; [exact (proj1 Hz) | exact (proj2 Hz)]. Qed.

Lemma max_size_eq {T} `{ObjectType T}
    (self : bsl.allocator (MState:=MState) T) :
  bsl.max_size pf self
  = IntType.max_value (bslma_size_type pf) / Z.pos sizeof.
Proof.
  unfold bsl.max_size, bsl.MAX_NUM_ELEMENTS.
  rewrite MAX_NUM_BYTES_eq.
  pose proof max_value_bslma_le as Hm.
  rewrite (convert_in_range (size_t pf)
             (IntType.max_value (bslma_size_type pf)))
    by (apply in_range_size_t; lia).
  unfold IntType.div. rewrite Z.quot_div_nonneg by lia.
  apply convert_in_range, in_range_size_t.
  assert (0 <= IntType.max_value (bslma_size_type pf) / Z.pos sizeof)
    by (apply Z.div_pos; lia).
  assert (IntType.max_value (bslma_size_type pf) / Z.pos sizeof
          <= IntType.max_value (bslma_size_type pf))
    by (apply Z.div_le_upper_bound; nia).
  lia.
Qed.

End MaxSizeFacts.

(* ===================================================================== *)
(** ** Identity of proxies: construction, conversion and equality *)
(* ===================================================================== *)

Lemma ptr_eqb_true_iff {q T} (p1 p2 : Ptr q T) :
  ptr_eqb p1 p2 = true <-> p1 = p2.
Proof.
  destruct p1 as [a1], p2 as [a2]. unfold ptr_eqb. simpl.
  rewrite Z.eqb_eq. split; [intros -> | intros [= ->]]; reflexivity.
Qed.

Lemma ptr_eqb_refl {q T} (p : Ptr q T) : ptr_eqb p p = true.
Proof. apply ptr_eqb_true_iff. reflexivity. Qed.

Section Identity.

Context {MState Registry : Type}.
Variable defaultAllocator : Registry -> Ptr cv_none (bslma.Allocator MState).

Local Abbreviation allocator := (bsl.allocator (MState:=MState)).
Local Abbreviation allocator_void := (bsl.allocator_void (MState:=MState)).
Local Abbreviation Proxy := (bsl.Proxy (MState:=MState)).

(** C1.  Two proxies, of whatever instantiations of the template (the
    specialization for [void] included), compare equal with [operator==]
    if and only if their [mechanism()] pointers are the same pointer. *)
Theorem operator_eq_iff_same_mechanism {A B : Type} `{Proxy A} `{Proxy B}
    (a : A) (b : B) :
  bsl.operator_eq a b = true <-> bsl.mechanism a = bsl.mechanism b.
Proof. unfold bsl.operator_eq. apply ptr_eqb_true_iff. Qed.

(** C2.  The constructor from a mechanism pointer [m] binds the proxy to [m]
    when [m] is not null and to the registry's current default mechanism
    when it is; the default constructor binds to the current default
    mechanism.  Both hold for [allocator<T>] and for [allocator<void>]. *)
Theorem ctor_mechanism_binding (T : Type) (g : Registry)
    (m : Ptr cv_none (bslma.Allocator MState)) :
  bsl.mechanism (bsl.allocator_ctor_mechanism defaultAllocator T g m)
    = (if is_null m then defaultAllocator g else m)
  /\ bsl.mechanism (bsl.allocator_void_ctor_mechanism defaultAllocator g m)
    = (if is_null m then defaultAllocator g else m)
  /\ bsl.mechanism (bsl.allocator_ctor defaultAllocator T g)
    = defaultAllocator g
  /\ bsl.mechanism (bsl.allocator_void_ctor defaultAllocator g)
    = defaultAllocator g.
Proof. repeat split. Qed.

(** C3.  The copy constructor and the converting constructor, of
    [allocator<T>] and of [allocator<void>], bind the new proxy to the
    mechanism of the source, whatever the element type of the source, and
    the new proxy compares equal to the source; a proxy converted from [T]
    to [U] and back is the original one. *)
Theorem copy_and_convert_preserve_mechanism (T U : Type) {A : Type} `{Proxy A}
    (a : allocator T) (v : allocator_void) (rhs : A) :
  (bsl.mechanism (bsl.allocator_ctor_copy a) = bsl.mechanism a
   /\ bsl.operator_eq (bsl.allocator_ctor_copy a) a = true)
  /\ (bsl.mechanism (bsl.allocator_ctor_convert T rhs) = bsl.mechanism rhs
      /\ bsl.operator_eq (bsl.allocator_ctor_convert T rhs) rhs = true)
  /\ (bsl.mechanism (bsl.allocator_void_ctor_copy v) = bsl.mechanism v
      /\ bsl.operator_eq (bsl.allocator_void_ctor_copy v) v = true)
  /\ (bsl.mechanism (bsl.allocator_void_ctor_convert rhs) = bsl.mechanism rhs
      /\ bsl.operator_eq (bsl.allocator_void_ctor_convert rhs) rhs = true)
  /\ (bsl.allocator_ctor_convert T (bsl.allocator_ctor_convert U a) = a
      /\ bsl.operator_eq
           (bsl.allocator_ctor_convert T (bsl.allocator_ctor_convert U a)) a
         = true)
  /\ (bsl.allocator_ctor_convert T (bsl.allocator_void_ctor_convert a) = a
      /\ bsl.allocator_void_ctor_convert (bsl.allocator_ctor_convert T v) = v).
Proof.
  destruct a as [ma], v as [mv].
  repeat split; try reflexivity;
    unfold bsl.operator_eq; simpl; apply ptr_eqb_refl.
Qed.

End Identity.

(* ===================================================================== *)
(** ** max_size and the byte count of allocate *)
(* ===================================================================== *)

Section Sizes.

Context {MState : Type}.
Variable pf : Platform.

Local Abbreviation allocator := (bsl.allocator (MState:=MState)).

Lemma all_ones_eq : all_ones pf = IntType.max_value (size_t pf).
Proof. unfold all_ones. rewrite lognot_zero. reflexivity. Qed.

Lemma half_all_ones :
  IntType.max_value (size_t pf) / 2
  = IntType.half_modulus (size_t pf) - 1.
Proof.
  pose proof (modulus_double (size_t pf)).
  pose proof (half_modulus_pos (size_t pf)).
  unfold IntType.max_value. simpl.
  symmetry. apply Z.div_unique with (r := 1); lia.
Qed.

Lemma max_value_bslma :
  IntType.max_value (bslma_size_type pf)
  = if bslma_size_signed pf
    then IntType.max_value (size_t pf) / 2
    else IntType.max_value (size_t pf).
Proof.
  rewrite half_all_ones. unfold IntType.max_value. simpl.
  destruct (bslma_size_signed pf); reflexivity.
Qed.

(** C4.  [max_size()] for an element type of size [s] is [(~0) / s], the
    division being that of [std::size_t], and half of that (rounded down)
    when the count type of the mechanism is signed; [~0] is the largest
    value of [std::size_t], so that for an element type of one byte
    [max_size()] is that largest value, or half of it under a signed count
    type. *)
Theorem max_size_formula {T : Type} `{ObjectType T} (self : allocator T) :
  bsl.max_size pf self
    = (if bslma_size_signed pf
       then all_ones pf / Z.pos sizeof / 2
       else all_ones pf / Z.pos sizeof)
  /\ all_ones pf = 2 ^ Z.pos (size_bits pf) - 1
  /\ forall (copy : T -> T) (op : option (forall q, Ref q T -> Ptr q T)),
       bsl.max_size
         (H := {| sizeof := 1; copy_construct := copy; operator_amp := op |})
         pf self
       = if bslma_size_signed pf
         then (2 ^ Z.pos (size_bits pf) - 1) / 2
         else 2 ^ Z.pos (size_bits pf) - 1.
Proof.
  split; [| split].
  - rewrite max_size_eq, max_value_bslma, all_ones_eq.
    destruct (bslma_size_signed pf); [| reflexivity].
    rewrite !Z.div_div by lia. f_equal. lia.
  - rewrite all_ones_eq. reflexivity.
  - intros copy op. rewrite max_size_eq, max_value_bslma. simpl.
    rewrite Z.div_1_r. reflexivity.
Qed.

(** What [n <= max_size()] gives for a count [n]: the product with the
    element size is a value of the count type of the mechanism. *)
Lemma product_bounded {T : Type} `{ObjectType T} (self : allocator T)
    (n : Z) :
  0 <= n <= bsl.max_size pf self ->
  0 <= n * Z.pos sizeof <= IntType.max_value (bslma_size_type pf).
Proof.
  rewrite max_size_eq. intros [Hn0 Hn].
  split; [lia |].
  pose proof max_value_bslma_le pf as Hm.
  pose proof (Z.mul_div_le (IntType.max_value (bslma_size_type pf))
                (Z.pos sizeof) ltac:(lia)).
  nia.
Qed.

Lemma allocate_size_exact {T : Type} `{ObjectType T} (self : allocator T)
    (n : Z) :
  0 <= n <= bsl.max_size pf self ->
  bsl.allocate_size pf n = n * Z.pos sizeof.
Proof.
  intros Hn. pose proof (product_bounded self n Hn) as Hp.
  pose proof max_value_bslma_le pf as Hm.
  pose proof (min_le_max (bslma_size_type pf)) as Hmin.
  unfold bsl.allocate_size, IntType.mul.
  rewrite (convert_in_range (size_t pf)) by (apply in_range_size_t; lia).
  apply convert_in_range. unfold IntType.in_range. lia.
Qed.

(** C6.  For a count [n <= max_size()] the product [n * sizeof(T)] is
    computed in [std::size_t] without wrapping around, and is a
    non-negative value of the count type of the mechanism (of its
    non-negative half when that type is signed); the assertion
    [n <= max_size()] at the head of [allocate] does not fail. *)
Theorem product_fits_under_max_size {T : Type} `{ObjectType T}
    (self : allocator T) (n : Z)
    (Hn : 0 <= n <= bsl.max_size pf self) :
  0 <= n * Z.pos sizeof <= IntType.max_value (size_t pf)
  /\ IntType.mul (size_t pf) n (Z.pos sizeof) = n * Z.pos sizeof
  /\ 0 <= n * Z.pos sizeof <= IntType.max_value (bslma_size_type pf)
  /\ bsl.allocate_size pf n = n * Z.pos sizeof
  /\ forall (hint : Ptr cv_const void) (w : bsl.World T),
       bsl.allocate pf n hint (self, w) <> bsl.AssertionFailure.
Proof.
  pose proof (product_bounded self n Hn) as Hp.
  pose proof max_value_bslma_le pf as Hm.
  repeat split; try lia.
  - unfold IntType.mul. apply convert_in_range, in_range_size_t. lia.
  - apply (allocate_size_exact self n Hn).
  - intros hint w. unfold bsl.allocate.
    replace (n <=? bsl.max_size pf self) with true
      by (symmetry; apply Z.leb_le; lia).
    rewrite andb_false_r.
    destruct (bsl.mechanisms w !! p_addr (bsl.d_mechanism self));
      [| discriminate].
    destruct (bslma.v_allocate _ _ _) as [[p |] data']; discriminate.
Qed.

End Sizes.

(* ===================================================================== *)
(** ** Forwarding to the mechanism *)
(* ===================================================================== *)

Section Forwarding.

Context {MState : Type}.
Variable pf : Platform.

Local Abbreviation allocator := (bsl.allocator (MState:=MState)).

(** C5.  For [n <= max_size()], [allocate(n)] makes one call of the
    [allocate] of the mechanism object that [d_mechanism] points to, with
    the byte count [n * sizeof(T)], which is a value of the count type of
    the mechanism, and returns the pointer that the mechanism returns, as a
    pointer to [T]; when the mechanism throws, the call is left by that
    exception.  [*this] is not changed. *)
Theorem allocate_forwards_product {T : Type} `{ObjectType T}
    (self : allocator T) (w : bsl.World T) (n : Z) (hint : Ptr cv_const void)
    (obj : bslma.Allocator MState)
    (Hn : 0 <= n <= bsl.max_size pf self)
    (Hobj : bsl.mechanisms w !! p_addr (bsl.d_mechanism self) = Some obj) :
  let size := n * Z.pos sizeof in
  let r := bslma.v_allocate (bslma.m_vptr obj) (bslma.m_data obj) size in
  let w' :=
    world_after_call w (bsl.d_mechanism self) obj (snd r)
      (bsl.CallAllocate (bsl.d_mechanism self) size) in
  IntType.in_range (bslma_size_type pf) size
  /\ bsl.allocate pf n hint (self, w)
     = match fst r with
       | bslma.Returned p => bsl.Normal (mkPtr (p_addr p)) (self, w')
       | bslma.Thrown => bsl.Exceptional (self, w')
       end.
Proof.
  intros size r w'.
  pose proof (product_bounded pf self n Hn) as Hp.
  pose proof (min_le_max (bslma_size_type pf)) as Hmin.
  split.
  - unfold IntType.in_range, size. lia.
  - unfold bsl.allocate.
    replace (n <=? bsl.max_size pf self) with true
      by (symmetry; apply Z.leb_le; lia).
    rewrite andb_false_r, Hobj.
    rewrite (allocate_size_exact pf self n Hn).
    subst w' r size. unfold world_after_call.
    destruct (bslma.v_allocate _ _ _) as [[p |] data']; reflexivity.
Qed.

(** C10.  [allocate] does not look at its [hint]: from the same proxy and
    the same world, two calls with the same [n] and any two hints end the
    same way, with the same result, the same call made to the mechanism and
    the same world. *)
Theorem allocate_ignores_hint {T : Type} `{ObjectType T}
    (self : allocator T) (w : bsl.World T) (n : Z)
    (h1 h2 : Ptr cv_const void) :
  bsl.allocate pf n h1 (self, w) = bsl.allocate pf n h2 (self, w).
Proof. reflexivity. Qed.

(** C8.  [construct(p, v)] followed by [destroy(p)] makes no call to the
    mechanism: [construct] puts a copy of [v] at [p] and [destroy] ends its
    life, both return, and after the pair the proxy is bound as before, the
    mechanism objects are as before and no call has been added to the calls
    made through the proxy. *)
Theorem construct_destroy_no_mechanism_call {T : Type} `{ObjectType T}
    (self : allocator T) (w : bsl.World T) (p : Ptr cv_none T) (v : T) :
  (exists w1,
     bsl.construct p v (self, w) = bsl.Normal tt (self, w1)
     /\ bsl.objects w1 !! p_addr p = Some (copy_construct v)
     /\ bsl.mechanisms w1 = bsl.mechanisms w
     /\ bsl.calls w1 = bsl.calls w)
  /\ exists w2,
       bsl.bind (bsl.construct p v) (fun _ => bsl.destroy p) (self, w)
         = bsl.Normal tt (self, w2)
       /\ bsl.objects w2 !! p_addr p = None
       /\ bsl.objects w2 = delete (p_addr p) (bsl.objects w)
       /\ bsl.mechanisms w2 = bsl.mechanisms w
       /\ bsl.calls w2 = bsl.calls w.
Proof.
  split.
  - eexists. split; [reflexivity |]. simpl.
    rewrite lookup_insert_eq. repeat split.
  - eexists. split; [reflexivity |]. simpl.
    rewrite lookup_delete_eq, delete_insert_eq. repeat split.
Qed.

End Forwarding.

(* ===================================================================== *)
(** ** The mechanism of a proxy is never null *)
(* ===================================================================== *)

Section Lifecycle.

Context {MState Registry : Type}.
Variable defaultAllocator : Registry -> Ptr cv_none (bslma.Allocator MState).
Variable pf : Platform.

Local Abbreviation allocator := (bsl.allocator (MState:=MState)).

Create HintDb members.

#[local] Hint Unfold bsl.allocate bsl.deallocate bsl.construct bsl.destroy
  : members.

(** No manipulator assigns to [d_mechanism]. *)
Lemma allocate_keeps_this {T : Type} `{ObjectType T} (self self' : allocator T)
    (w w' : bsl.World T) (n : Z) (hint : Ptr cv_const void) :
  bsl.state_after (bsl.allocate pf n hint (self, w)) = Some (self', w') ->
  self' = self.
Proof.
  autounfold with members.
  destruct (assert_safe pf && negb (n <=? bsl.max_size pf self));
    [discriminate |].
  destruct (bsl.mechanisms w !! p_addr (bsl.d_mechanism self));
    [| discriminate].
  destruct (bslma.v_allocate _ _ _) as [[p |] data']; simpl; congruence.
Qed.

Lemma deallocate_keeps_this {T : Type} (self self' : allocator T)
    (w w' : bsl.World T) (p : Ptr cv_none T) (n : Z) :
  bsl.state_after (bsl.deallocate p n (self, w)) = Some (self', w') ->
  self' = self.
Proof.
  autounfold with members.
  destruct (bsl.mechanisms w !! p_addr (bsl.d_mechanism self));
    simpl; congruence.
Qed.

Lemma construct_keeps_this {T : Type} `{ObjectType T}
    (self self' : allocator T) (w w' : bsl.World T) (p : Ptr cv_none T)
    (val : T) :
  bsl.state_after (bsl.construct p val (self, w)) = Some (self', w') ->
  self' = self.
Proof. autounfold with members. simpl. congruence. Qed.

Lemma destroy_keeps_this {T : Type} (self self' : allocator T)
    (w w' : bsl.World T) (p : Ptr cv_none T) :
  bsl.state_after (bsl.destroy p (self, w)) = Some (self', w') ->
  self' = self.
Proof. autounfold with members. simpl. congruence. Qed.

Hypothesis defaultAllocator_nonnull :
  forall g : Registry, is_null (defaultAllocator g) = false.

Lemma Default_allocator_nonnull (g : Registry)
    (m : Ptr cv_none (bslma.Allocator MState)) :
  is_null (bslma.Default_allocator defaultAllocator g m) = false.
Proof.
  unfold bslma.Default_allocator.
  destruct (is_null m) eqn:Hm; [apply defaultAllocator_nonnull | exact Hm].
Qed.

(** C7.  While the registry never yields a null default mechanism, the
    [mechanism()] of a proxy is not null: not after the default
    constructor, the constructor from a mechanism pointer, the copy
    constructor or the converting constructor (of [allocator<T>] or of
    [allocator<void>]), and not after an assignment or a call of
    [allocate], [deallocate], [construct] or [destroy] on such a proxy. *)
Theorem mechanism_never_null (x : bsl.AnyProxy (MState:=MState)) :
  bsl.constructed defaultAllocator pf x ->
  is_null (bsl.AnyProxy_mechanism x) = false.
Proof.
  induction 1 as
    [ T g | T g m | T rhs _ IH | T U rhs _ IH | T rhs _ IH
    | T self rhs _ _ _ IH
    | g | g m | rhs _ IH | U rhs _ IH | self rhs _ _ _ IH
    | T OT self w n hint self' w' _ IH Hcall
    | T OT self w p n self' w' _ IH Hcall
    | T OT self w p val self' w' _ IH Hcall
    | T OT self w p self' w' _ IH Hcall ];
    simpl;
    try apply defaultAllocator_nonnull;
    try apply Default_allocator_nonnull;
    try exact IH.
  - apply allocate_keeps_this in Hcall. subst self'. exact IH.
  - apply deallocate_keeps_this in Hcall. subst self'. exact IH.
  - apply construct_keeps_this in Hcall. subst self'. exact IH.
  - apply destroy_keeps_this in Hcall. subst self'. exact IH.
Qed.

End Lifecycle.

(* ===================================================================== *)
(** ** address and the address-of helper *)
(* ===================================================================== *)

Section Address.

Context {MState : Type}.

Local Abbreviation allocator := (bsl.allocator (MState:=MState)).

(** C9, as amended.  [address(x)] is [BSLS_UTIL_ADDRESSOF(x)]: under
    [BSLS_PLATFORM_CMP_MSVC] it goes through the address-of helper and is
    the storage address of [x] for every element type; on the other
    platforms it is the [&] of the element type, the storage address of [x]
    when the type does not redefine the operation and what the redefined
    operation yields when it does.  The helper itself yields the storage
    address of its argument for every object type. *)
Theorem address_by_platform (pf : Platform) {T : Type} `{ObjectType T}
    (self : allocator T) (x : Ref cv_none T) (cx : Ref cv_const T) :
  p_addr (bsl.address pf self x)
    = (if cmp_msvc pf then r_addr x
       else match operator_amp with
            | Some f => p_addr (f cv_none x)
            | None => r_addr x
            end)
  /\ p_addr (bsl.address_const pf self cx)
    = (if cmp_msvc pf then r_addr cx
       else match operator_amp with
            | Some f => p_addr (f cv_const cx)
            | None => r_addr cx
            end)
  /\ forall (q : cv) (U : Type) (obj : Ref q U),
       p_addr (bsls.Util_addressOf obj) = r_addr obj.
Proof.
  unfold bsl.address, bsl.address_const, bsls.BSLS_UTIL_ADDRESSOF, amp.
  repeat split; destruct (cmp_msvc pf); try reflexivity;
    destruct operator_amp; reflexivity.
Qed.

End Address.

(* ===================================================================== *)
(** ** The properties at concrete proxies *)
(* ===================================================================== *)

Section Concrete.

Import Examples.

Local Abbreviation countingAlloc :=
  (mkPtr 8192 : Ptr cv_none (bslma.Allocator Counting)).

(** Five [int]s through a proxy of [countingAlloc]: twenty bytes are asked
    of the mechanism. *)
Lemma allocate_forwards_product_witness :
  let self := bsl.allocator_ctor_mechanism registry1 int tt countingAlloc in
  let r := Counting_allocate (bslma.m_data Counting_ctor) 20 in
  IntType.in_range (bslma_size_type unix64) 20
  /\ bsl.allocate unix64 5 null (self, world0 int)
     = bsl.Normal (mkPtr 65536)
         (self,
          world_after_call (world0 int) countingAlloc Counting_ctor (snd r)
            (bsl.CallAllocate countingAlloc 20)).
Proof.
  intros self r.
  refine (allocate_forwards_product unix64 self (world0 int) 5 null
            Counting_ctor _ _).
  - split; [lia | apply Z.leb_le; vm_compute; reflexivity].
  - vm_compute. reflexivity.
Defined.

Lemma product_fits_under_max_size_witness :
  let self := bsl.allocator_ctor_mechanism registry1 int tt countingAlloc in
  0 <= 5 * 4 <= IntType.max_value (size_t unix64)
  /\ IntType.mul (size_t unix64) 5 4 = 5 * 4
  /\ 0 <= 5 * 4 <= IntType.max_value (bslma_size_type unix64)
  /\ bsl.allocate_size (T:=int) unix64 5 = 5 * 4
  /\ forall (hint : Ptr cv_const void) (w : bsl.World int),
       bsl.allocate unix64 5 hint (self, w) <> bsl.AssertionFailure.
Proof.
  intros self.
  refine (product_fits_under_max_size unix64 self 5 _).
  split; [lia | apply Z.leb_le; vm_compute; reflexivity].
Defined.

(** A proxy made from a null pointer, converted to [allocator<void>] and
    back, then used to allocate. *)
Lemma mechanism_never_null_witness :
  let a := bsl.allocator_ctor_mechanism registry1 int tt null in
  let v := bsl.allocator_void_ctor_convert a in
  let b := bsl.allocator_ctor_convert int v in
  (forall g : unit, is_null (registry1 g) = false)
  /\ is_null (bsl.mechanism b) = false.
Proof.
  intros a v b.
  assert (forall g : unit, is_null (registry1 g) = false) as Hreg
    by (intros g; reflexivity).
  split; [exact Hreg |].
  refine (mechanism_never_null registry1 unix64 Hreg (bsl.ProxyOf int b) _).
  apply bsl.by_ctor_convert_from_void, bsl.by_void_ctor_convert,
    bsl.by_ctor_mechanism.
Defined.

(** On a platform other than Microsoft's, [address] of an object of a class
    whose [operator&] returns a null pointer is that null pointer, not the
    storage address of the object. *)
Lemma address_of_Guarded_is_not_storage :
  let self := bsl.allocator_ctor registry1 Guarded tt in
  let x : Ref cv_none Guarded := mkRef 1000 in
  p_addr (bsl.address unix64 self x) = 0
  /\ p_addr (bsl.address unix64 self x) <> r_addr x.
Proof. intros self x. split; [reflexivity | discriminate]. Qed.

End Concrete.

(* ===================================================================== *)
(** ** The usage example of the component *)
(* ===================================================================== *)

Section Usage.

Import Examples.

Local Abbreviation countingAlloc :=
  (mkPtr 8192 : Ptr cv_none (bslma.Allocator Counting)).

(** [assert(bslma::Default::defaultAllocator() == a1.allocator());] *)
Example usage_default_allocator :
  bsl.operator_eq_mechanism_l (const_cast cv_const (registry1 tt))
    (bsl.allocator_ctor registry1 int tt) = true.
Proof. reflexivity. Qed.

(** [assert(a1.allocator() != a2.allocator());
     assert(&countingAlloc == a2.allocator());] *)
Example usage_distinct_mechanisms :
  let a1 := bsl.allocator_ctor registry1 int tt in
  let a2 := bsl.allocator_ctor_mechanism registry1 int tt countingAlloc in
  bsl.operator_ne a1 a2 = true
  /\ bsl.operator_eq_mechanism_l (const_cast cv_const countingAlloc) a2
     = true.
Proof. split; reflexivity. Qed.

(** [assert(1 == countingAlloc.blocksOutstanding())] after the array of five
    [int]s has been allocated through [a2], and none outstanding once it has
    been given back. *)
Example usage_blocksOutstanding :
  let a2 := bsl.allocator_ctor_mechanism registry1 int tt countingAlloc in
  (exists p w1,
     bsl.allocate unix64 5 null (a2, world0 int) = bsl.Normal p (a2, w1)
     /\ (d_blocksOutstanding ∘ bslma.m_data) <$> bsl.mechanisms w1 !! 8192
        = Some 1
     /\ exists w2,
          bsl.deallocate p 5 (a2, w1) = bsl.Normal tt (a2, w2)
          /\ (d_blocksOutstanding ∘ bslma.m_data) <$>
               bsl.mechanisms w2 !! 8192 = Some 0
          /\ bsl.calls w2
             = [bsl.CallAllocate countingAlloc 20;
                bsl.CallDeallocate countingAlloc (mkPtr 65536)]).
Proof.
  intros a2. eexists _, _. split; [vm_compute; reflexivity |].
  split; [vm_compute; reflexivity |].
  eexists. split; [vm_compute; reflexivity |].
  split; vm_compute; reflexivity.
Qed.

(** [max_size()] of [allocator<int>] where the count type is a signed 64-bit
    integer: [(2^63 - 1) / 4]. *)
Example max_size_int_unix64 :
  bsl.max_size unix64 (bsl.allocator_ctor registry1 int tt)
  = 2305843009213693951.
Proof. vm_compute. reflexivity. Qed.

(** One element more than [max_size()]: the byte count handed to the
    mechanism would be negative. *)
Example allocate_size_beyond_max_size :
  bsl.allocate_size (T:=int) unix64 2305843009213693952
  = -9223372036854775808.
Proof. vm_compute. reflexivity. Qed.

(** With safe-mode assertions the call is stopped by the assertion. *)
Example allocate_beyond_max_size_asserts :
  bsl.allocate unix64 2305843009213693952 null
    (bsl.allocator_ctor registry1 int tt, world0 int)
  = bsl.AssertionFailure.
Proof. vm_compute. reflexivity. Qed.

(** [addressOf] of the usage example of [bsls_util.h]: the address of an
    object of a class with its own [operator&]. *)
Example addressOf_Guarded :
  p_addr (bsls.Util_addressOf (mkRef 1000 : Ref cv_none Guarded)) = 1000
  /\ p_addr (bsl.address msvc32 (bsl.allocator_ctor registry1 Guarded tt)
               (mkRef 1000)) = 1000.
Proof. split; reflexivity. Qed.

End Usage.

(* ===================================================================== *)
(** ** Further properties of the proxy *)
(* ===================================================================== *)

Lemma convert_is_in_range (ty : IntType.t) (z : Z) :
  IntType.in_range ty (IntType.convert ty z).
Proof.
  pose proof (modulus_double ty). pose proof (half_modulus_pos ty).
  unfold IntType.in_range, IntType.min_value, IntType.max_value,
    IntType.convert.
  destruct (IntType.is_signed ty).
  - pose proof (Z.mod_pos_bound (z + IntType.half_modulus ty)
                  (IntType.modulus ty) ltac:(lia)). lia.
  - pose proof (Z.mod_pos_bound z (IntType.modulus ty) ltac:(lia)). lia.
Qed.

Section MaxSizeSharp.

Context {MState : Type}.
Variable pf : Platform.

Local Abbreviation allocator := (bsl.allocator (MState:=MState)).

Lemma count_within_max_size_iff {T : Type} `{ObjectType T}
    (self : allocator T) (n : Z) :
  n <= bsl.max_size pf self
  <-> n * Z.pos sizeof <= IntType.max_value (bslma_size_type pf).
Proof.
  rewrite max_size_eq.
  pose proof (max_value_bslma_le pf) as Hm.
  pose proof (Z.mul_div_le (IntType.max_value (bslma_size_type pf))
                (Z.pos sizeof) ltac:(lia)) as Hle.
  split; intros Hn.
  - nia.
  - apply Z.div_le_lower_bound; lia.
Qed.

(** [max_size()] is not negative, and it is the largest count whose product
    with [sizeof(T)] is a value of the count type of the mechanism: a count
    is at most [max_size()] exactly when its byte count does not exceed the
    largest value of that type. *)
Theorem max_size_is_largest_count {T : Type} `{ObjectType T}
    (self : allocator T) (n : Z) :
  0 <= bsl.max_size pf self
  /\ (n <= bsl.max_size pf self
      <-> n * Z.pos sizeof <= IntType.max_value (bslma_size_type pf)).
Proof.
  split; [| apply count_within_max_size_iff].
  rewrite max_size_eq. pose proof (max_value_bslma_le pf) as Hm.
  apply Z.div_pos; lia.
Qed.

(** Beyond [max_size()] the byte count that [allocate] computes is no longer
    [n * sizeof(T)]: the product has wrapped around in [std::size_t] or has
    left the range of the count type of the mechanism.  Where
    [BSLS_ASSERT_SAFE] is active the call stops at the assertion, before
    anything is asked of the mechanism. *)
Theorem allocate_beyond_max_size {T : Type} `{ObjectType T}
    (self : allocator T) (n : Z)
    (Hn : bsl.max_size pf self < n) :
  bsl.allocate_size pf n <> n * Z.pos sizeof
  /\ forall (hint : Ptr cv_const void) (w : bsl.World T),
       assert_safe pf = true ->
       bsl.allocate pf n hint (self, w) = bsl.AssertionFailure.
Proof.
  split.
  - pose proof (count_within_max_size_iff self n) as Hiff.
    pose proof (convert_is_in_range (bslma_size_type pf)
                  (IntType.mul (size_t pf) n (Z.pos sizeof))) as Hr.
    unfold bsl.allocate_size. unfold IntType.in_range in Hr.
    intros Heq. rewrite Heq in Hr.
    apply proj2, Hiff in Hr. lia.
  - intros hint w Hsafe. unfold bsl.allocate. rewrite Hsafe.
    replace (n <=? bsl.max_size pf self) with false
      by (symmetry; apply Z.leb_gt; exact Hn).
    reflexivity.
Qed.

End MaxSizeSharp.

Section Deallocate.

Context {MState : Type}.

Local Abbreviation allocator := (bsl.allocator (MState:=MState)).

(** [deallocate(p, n)] makes one call of the [deallocate] of the mechanism
    object that [d_mechanism] points to, with the address held by [p], and
    returns; the count [n] has no part in it, no assertion is made, and
    [*this] and the live objects are not changed. *)
Theorem deallocate_forwards_pointer {T : Type} (self : allocator T)
    (w : bsl.World T) (p : Ptr cv_none T) (n : Z)
    (obj : bslma.Allocator MState)
    (Hobj : bsl.mechanisms w !! p_addr (bsl.d_mechanism self) = Some obj) :
  let address : Ptr cv_none void := mkPtr (p_addr p) in
  let data' :=
    bslma.v_deallocate (bslma.m_vptr obj) (bslma.m_data obj) address in
  bsl.deallocate p n (self, w)
  = bsl.Normal tt
      (self,
       world_after_call w (bsl.d_mechanism self) obj data'
         (bsl.CallDeallocate (bsl.d_mechanism self) address)).
Proof. intros address data'. unfold bsl.deallocate. rewrite Hobj. reflexivity. Qed.

(** Proxies that compare equal can stand in for one another when memory is
    given back, whatever their element types: from worlds with the same
    mechanism objects and the same calls so far, [deallocate] of the same
    address through either of them ends the same way and leaves the same
    mechanism objects and the same calls. *)
Theorem equal_proxies_deallocate_alike {T U : Type}
    (a : allocator T) (b : allocator U)
    (w : bsl.World T) (w' : bsl.World U)
    (p : Ptr cv_none T) (p' : Ptr cv_none U) (n n' : Z)
    (Heq : bsl.operator_eq a b = true)
    (Hmech : bsl.mechanisms w = bsl.mechanisms w')
    (Hcalls : bsl.calls w = bsl.calls w')
    (Hp : p_addr p = p_addr p') :
  mechanism_effect (bsl.deallocate p n (a, w))
  = mechanism_effect (bsl.deallocate p' n' (b, w')).
Proof.
  apply ptr_eqb_true_iff in Heq. simpl in Heq.
  unfold mechanism_effect, bsl.deallocate, static_cast_to_void.
  rewrite Heq, Hmech, Hcalls, Hp.
  destruct (bsl.mechanisms w' !! p_addr (bsl.d_mechanism b)); reflexivity.
Qed.

End Deallocate.

Section Comparison.

Context {MState : Type}.

Local Abbreviation Proxy := (bsl.Proxy (MState:=MState)).

(** [operator==] on proxies, of whatever instantiations, is an equivalence:
    every proxy equals itself, the order of the operands does not matter,
    and two proxies equal to a third are equal. *)
Theorem operator_eq_equivalence {A B C : Type} `{Proxy A} `{Proxy B}
    `{Proxy C} (a : A) (b : B) (c : C) :
  bsl.operator_eq a a = true
  /\ bsl.operator_eq a b = bsl.operator_eq b a
  /\ (bsl.operator_eq a b = true -> bsl.operator_eq b c = true ->
      bsl.operator_eq a c = true).
Proof.
  unfold bsl.operator_eq, ptr_eqb. repeat split.
  - apply Z.eqb_refl.
  - apply Z.eqb_sym.
  - rewrite !Z.eqb_eq. congruence.
Qed.

(** [operator!=] on proxies is true exactly when the two [mechanism()]
    pointers differ, and is the negation of [operator==]. *)
Theorem operator_ne_iff_different_mechanism {A B : Type} `{Proxy A}
    `{Proxy B} (a : A) (b : B) :
  (bsl.operator_ne a b = true <-> bsl.mechanism a <> bsl.mechanism b)
  /\ bsl.operator_ne a b = negb (bsl.operator_eq a b).
Proof.
  split; [| reflexivity].
  unfold bsl.operator_ne. rewrite negb_true_iff, <- not_true_iff_false.
  unfold bsl.operator_eq. rewrite ptr_eqb_true_iff. reflexivity.
Qed.

(** The comparisons of a proxy with a pointer to a mechanism: a proxy equals
    a pointer exactly when its [mechanism()] holds the same address, with
    the pointer on either side; the two [operator!=] are the negations; and
    a proxy always equals its own [mechanism()]. *)
Theorem mechanism_pointer_comparisons {A : Type} `{Proxy A} (a : A)
    (p : Ptr cv_const (bslma.Allocator MState)) :
  (bsl.operator_eq_mechanism_r a p = true
   <-> p_addr (bsl.mechanism a) = p_addr p)
  /\ bsl.operator_eq_mechanism_l p a = bsl.operator_eq_mechanism_r a p
  /\ (bsl.operator_ne_mechanism_r a p = true
      <-> p_addr (bsl.mechanism a) <> p_addr p)
  /\ bsl.operator_ne_mechanism_l p a = bsl.operator_ne_mechanism_r a p
  /\ bsl.operator_eq_mechanism_r a (const_cast cv_const (bsl.mechanism a))
     = true.
Proof.
  unfold bsl.operator_ne_mechanism_l, bsl.operator_ne_mechanism_r,
    bsl.operator_eq_mechanism_l, bsl.operator_eq_mechanism_r, ptr_eqb.
  repeat split.
  - apply Z.eqb_eq.
  - apply Z.eqb_eq.
  - apply Z.eqb_sym.
  - rewrite negb_true_iff. apply Z.eqb_neq.
  - rewrite negb_true_iff. apply Z.eqb_neq.
  - f_equal. apply Z.eqb_sym.
  - simpl. apply Z.eqb_refl.
Qed.

(** Two proxies of one instantiation compare equal exactly when they are
    the same value, which is what the trait
    [bslmf::IsBitwiseEqualityComparable] of the class declares. *)
Theorem operator_eq_is_bitwise {T : Type}
    (a b : bsl.allocator (MState:=MState) T) :
  bsl.operator_eq a b = true <-> a = b.
Proof.
  unfold bsl.operator_eq. rewrite ptr_eqb_true_iff. simpl.
  destruct a as [ma], b as [mb]. simpl.
  split; [intros -> | intros [= ->]]; reflexivity.
Qed.

End Comparison.

Section OneCall.

Context {MState : Type}.
Variable pf : Platform.

Local Abbreviation allocator := (bsl.allocator (MState:=MState)).

(** Whenever a call of [allocate] comes back, by a return or by the
    exception of the mechanism, and whatever the count was, it has made
    exactly one call, to the [allocate] of the mechanism of the proxy, with
    the byte count computed from the count, and has left [*this] as it
    was. *)
Theorem allocate_makes_one_call {T : Type} `{ObjectType T}
    (self self' : allocator T) (w w' : bsl.World T) (n : Z)
    (hint : Ptr cv_const void)
    (Hback :
       bsl.state_after (bsl.allocate pf n hint (self, w)) = Some (self', w')) :
  self' = self
  /\ bsl.calls w'
     = bsl.calls w
       ++ [bsl.CallAllocate (bsl.d_mechanism self) (bsl.allocate_size pf n)].
Proof.
  revert Hback. unfold bsl.allocate.
  destruct (assert_safe pf && negb (n <=? bsl.max_size pf self));
    [discriminate |].
  destruct (bsl.mechanisms w !! p_addr (bsl.d_mechanism self));
    [| discriminate].
  destruct (bslma.v_allocate _ _ _) as [[p |] data']; simpl;
    intros [= <- <-]; split; reflexivity.
Qed.


End OneCall.

(* ===================================================================== *)
(** ** my_FixedSizeArray over the proxy *)
(* ===================================================================== *)

Section ArrayFacts.

Context {MState : Type}.
Variable pf : Platform.
Context {T : Type} `{ObjectType T} `{ArrayElement T}.

Local Abbreviation Alloc := (bsl.allocator (MState:=MState) T).
Local Abbreviation World := (bsl.World (MState:=MState) T).
Local Abbreviation Array := (my_FixedSizeArray.t (MState:=MState) T).

(** The address of element [i] of an array that starts at [base]. *)
Local Abbreviation slot base i := (p_addr base + i * Z.pos sizeof).

Lemma slot_injective (base : Ptr cv_none T) (i j : Z) :
  slot base i = slot base j -> i = j.
Proof. intros Hs. nia. Qed.

(** The element type does not redefine [operator&]. *)
Hypothesis builtin_amp : operator_amp = None.

Lemma amp_subscript (base : Ptr cv_none T) (i : Z) :
  p_addr (amp (my_FixedSizeArray.subscript base i)) = slot base i.
Proof. unfold amp. rewrite builtin_amp. reflexivity. Qed.

(** The loop of the constructor. *)
Lemma construct_loop_spec (base : Ptr cv_none T) (v : T) (count : nat) :
  forall (i : Z) (alloc : Alloc) (w : World),
  exists w' : World,
    my_FixedSizeArray.for_loop count i
      (fun j => bsl.construct (amp (my_FixedSizeArray.subscript base j)) v)
      (alloc, w)
    = bsl.Normal tt (alloc, w')
    /\ bsl.mechanisms w' = bsl.mechanisms w
    /\ bsl.calls w' = bsl.calls w
    /\ (forall j, i <= j < i + Z.of_nat count ->
          bsl.objects w' !! slot base j = Some (copy_construct v))
    /\ (forall k, (forall j, i <= j < i + Z.of_nat count -> k <> slot base j) ->
          bsl.objects w' !! k = bsl.objects w !! k).
Proof.
  induction count as [| count IH]; intros i alloc w.
  - exists w. repeat split; [intros j Hj; lia].
  - simpl my_FixedSizeArray.for_loop. unfold bsl.bind at 1.
    unfold bsl.construct at 1. unfold static_cast_to_void. simpl p_addr.
    rewrite amp_subscript.
    match goal with
    | |- context [my_FixedSizeArray.for_loop count (i + 1) _ (alloc, ?w1)] =>
        destruct (IH (i + 1) alloc w1)
          as (w' & Hrun & Hmech & Hcalls & Hin & Hout)
    end.
    simpl in Hmech, Hcalls, Hout.
    exists w'. split; [exact Hrun |].
    split; [exact Hmech |]. split; [exact Hcalls |]. split.
    + intros j Hj. destruct (Z.eq_dec j i) as [-> | Hne].
      * rewrite Hout by (intros j' Hj' Heq; apply slot_injective in Heq; lia).
        apply lookup_insert_eq.
      * apply Hin. lia.
    + intros k Hk. rewrite Hout by (intros j Hj; apply Hk; lia).
      apply lookup_insert_ne. intros Heq. apply (Hk i); [lia | congruence].
Qed.

Lemma allocator_ctor_copy_id (alloc : Alloc) :
  bsl.allocator_ctor_copy alloc = alloc.
Proof. destruct alloc. reflexivity. Qed.

Lemma max_size_le_size_t (alloc : Alloc) :
  0 <= bsl.max_size pf alloc <= IntType.max_value (size_t pf).
Proof.
  rewrite max_size_eq.
  pose proof (max_value_bslma_le pf) as Hm.
  split; [apply Z.div_pos; lia |].
  transitivity (IntType.max_value (bslma_size_type pf)); [| lia].
  apply Z.div_le_upper_bound; nia.
Qed.

(** An [int] length within [max_size()] is the count that [allocate] gets. *)
Lemma length_as_count (alloc : Alloc) (length : Z) :
  0 <= length <= bsl.max_size pf alloc ->
  IntType.convert (size_t pf) length = length.
Proof.
  intros Hlen. pose proof (max_size_le_size_t alloc).
  apply convert_in_range, in_range_size_t. lia.
Qed.

(** [allocate] within [max_size()], by what the mechanism does. *)
Lemma allocate_by_mechanism (alloc : Alloc) (w : World) (n : Z)
    (hint : Ptr cv_const void) (obj : bslma.Allocator MState) :
  0 <= n <= bsl.max_size pf alloc ->
  bsl.mechanisms w !! p_addr (bsl.d_mechanism alloc) = Some obj ->
  bsl.allocate pf n hint (alloc, w)
  = let r := bslma.v_allocate (bslma.m_vptr obj) (bslma.m_data obj)
               (n * Z.pos sizeof) in
    let w' := world_after_call w (bsl.d_mechanism alloc) obj (snd r)
                (bsl.CallAllocate (bsl.d_mechanism alloc) (n * Z.pos sizeof)) in
    match fst r with
    | bslma.Returned p => bsl.Normal (mkPtr (p_addr p)) (alloc, w')
    | bslma.Thrown => bsl.Exceptional (alloc, w')
    end.
Proof.
  intros Hn Hobj. unfold bsl.allocate.
  replace (n <=? bsl.max_size pf alloc) with true
    by (symmetry; apply Z.leb_le; lia).
  rewrite andb_false_r, Hobj, (allocate_size_exact pf alloc n Hn).
  unfold world_after_call.
  destruct (bslma.v_allocate _ _ _) as [[p |] data']; reflexivity.
Qed.

(** The constructor of the array, for a length within [max_size()] and a
    mechanism that returns a block: it makes the one call of [allocate],
    for [length * sizeof(T)] bytes, keeps the proxy it was given, and leaves
    a copy of [T()] alive in each of the [length] elements of the block,
    and no other object changed. *)
Theorem array_ctor_builds_elements (length : Z) (alloc : Alloc) (w : World)
    (obj : bslma.Allocator MState) (block : Ptr cv_none void)
    (data' : MState)
    (Hlen : 0 <= length <= bsl.max_size pf alloc)
    (Hobj : bsl.mechanisms w !! p_addr (bsl.d_mechanism alloc) = Some obj)
    (Hret : bslma.v_allocate (bslma.m_vptr obj) (bslma.m_data obj)
              (length * Z.pos sizeof)
            = (bslma.Returned block, data')) :
  exists w' : World,
    my_FixedSizeArray.ctor pf length alloc w
    = bsl.Normal
        {| my_FixedSizeArray.d_allocator := alloc;
           my_FixedSizeArray.d_length := length;
           my_FixedSizeArray.d_array := mkPtr (p_addr block) |} w'
    /\ bsl.mechanisms w'
       = <[p_addr (bsl.d_mechanism alloc) :=
             bslma.mkAllocator (bslma.m_vptr obj) data']> (bsl.mechanisms w)
    /\ bsl.calls w'
       = bsl.calls w
         ++ [bsl.CallAllocate (bsl.d_mechanism alloc) (length * Z.pos sizeof)]
    /\ (forall i, 0 <= i < length ->
          bsl.objects w' !! (p_addr block + i * Z.pos sizeof)
          = Some (copy_construct T_default))
    /\ (forall k,
          (forall i, 0 <= i < length ->
             k <> p_addr block + i * Z.pos sizeof) ->
          bsl.objects w' !! k = bsl.objects w !! k).
Proof.
  unfold my_FixedSizeArray.ctor.
  rewrite allocator_ctor_copy_id, (length_as_count alloc length Hlen).
  unfold bsl.bind at 1.
  rewrite (allocate_by_mechanism alloc w length null obj Hlen Hobj).
  simpl. rewrite Hret. simpl.
  set (w1 := world_after_call _ _ _ _ _).
  destruct (construct_loop_spec (mkPtr (p_addr block)) T_default
              (Z.to_nat length) 0 alloc w1)
    as (w' & Hrun & Hmech & Hcalls & Hin & Hout).
  exists w'. unfold bsl.bind. rewrite Hrun. simpl.
  split; [reflexivity |]. split; [exact Hmech |]. split; [exact Hcalls |].
  split.
  - intros i Hi. apply Hin. lia.
  - intros k Hk. rewrite Hout; [reflexivity |].
    intros j Hj. apply Hk. lia.
Qed.

(** When the mechanism throws, the constructor of the array is left by that
    exception after the one call of [allocate]: no element has been
    constructed and no other call has been made. *)
Theorem array_ctor_propagates_exception (length : Z) (alloc : Alloc)
    (w : World) (obj : bslma.Allocator MState) (data' : MState)
    (Hlen : 0 <= length <= bsl.max_size pf alloc)
    (Hobj : bsl.mechanisms w !! p_addr (bsl.d_mechanism alloc) = Some obj)
    (Hret : bslma.v_allocate (bslma.m_vptr obj) (bslma.m_data obj)
              (length * Z.pos sizeof)
            = (bslma.Thrown, data')) :
  my_FixedSizeArray.ctor pf length alloc w
  = bsl.Exceptional
      (world_after_call w (bsl.d_mechanism alloc) obj data'
         (bsl.CallAllocate (bsl.d_mechanism alloc) (length * Z.pos sizeof))).
Proof.
  unfold my_FixedSizeArray.ctor.
  rewrite allocator_ctor_copy_id, (length_as_count alloc length Hlen).
  unfold bsl.bind at 1.
  rewrite (allocate_by_mechanism alloc w length null obj Hlen Hobj).
  simpl. rewrite Hret. reflexivity.
Qed.


(** The loop of the destructor. *)
Lemma destroy_loop_spec (base : Ptr cv_none T) (count : nat) :
  forall (i : Z) (alloc : Alloc) (w : World),
  exists w' : World,
    my_FixedSizeArray.for_loop count i
      (fun j => bsl.destroy (amp (my_FixedSizeArray.subscript base j)))
      (alloc, w)
    = bsl.Normal tt (alloc, w')
    /\ bsl.mechanisms w' = bsl.mechanisms w
    /\ bsl.calls w' = bsl.calls w
    /\ (forall j, i <= j < i + Z.of_nat count ->
          bsl.objects w' !! slot base j = None)
    /\ (forall k, (forall j, i <= j < i + Z.of_nat count -> k <> slot base j) ->
          bsl.objects w' !! k = bsl.objects w !! k).
Proof.
  induction count as [| count IH]; intros i alloc w.
  - exists w. repeat split; [intros j Hj; lia].
  - simpl my_FixedSizeArray.for_loop. unfold bsl.bind at 1.
    unfold bsl.destroy at 1. rewrite amp_subscript.
    set (w1 := bsl.mkWorld _ _ _).
    destruct (IH (i + 1) alloc w1)
      as (w' & Hrun & Hmech & Hcalls & Hin & Hout).
    subst w1. simpl in Hmech, Hcalls, Hout.
    exists w'. split; [exact Hrun |].
    split; [exact Hmech |]. split; [exact Hcalls |]. split.
    + intros j Hj. destruct (Z.eq_dec j i) as [-> | Hne].
      * rewrite Hout by (intros j' Hj' Heq; apply slot_injective in Heq; lia).
        apply lookup_delete_eq.
      * apply Hin. lia.
    + intros k Hk. rewrite Hout by (intros j Hj; apply Hk; lia).
      apply lookup_delete_ne. intros Heq. apply (Hk i); [lia | congruence].
Qed.

(** The loop of [operator==] on arrays whose elements are alive. *)
Lemma elements_equal_spec (w : World) (lhs rhs : Array) (x y : Z -> T)
    (count : nat) :
  forall i : Z,
  (forall j, i <= j < i + Z.of_nat count ->
     bsl.objects w !! slot (my_FixedSizeArray.d_array lhs) j = Some (x j)) ->
  (forall j, i <= j < i + Z.of_nat count ->
     bsl.objects w !! slot (my_FixedSizeArray.d_array rhs) j = Some (y j)) ->
  exists b : bool,
    my_FixedSizeArray.elements_equal w lhs rhs count i = Some b
    /\ (b = true <->
        forall j, i <= j < i + Z.of_nat count ->
          T_operator_ne (x j) (y j) = false).
Proof.
  induction count as [| count IH]; intros i Hx Hy.
  - exists true. split; [reflexivity |].
    split; [intros _ j Hj; lia | reflexivity].
  - simpl my_FixedSizeArray.elements_equal.
    unfold my_FixedSizeArray.operator_subscript, my_FixedSizeArray.subscript.
    simpl r_addr. rewrite (Hx i), (Hy i) by lia.
    destruct (T_operator_ne (x i) (y i)) eqn:Hne.
    + exists false. split; [reflexivity |].
      split; [discriminate |].
      intros Hall. rewrite (Hall i) in Hne by lia. discriminate.
    + destruct (IH (i + 1)) as (b & Hrun & Hb).
      { intros j Hj. apply Hx. lia. }
      { intros j Hj. apply Hy. lia. }
      exists b. split; [exact Hrun |].
      rewrite Hb. split.
      * intros Hall j Hj. destruct (Z.eq_dec j i) as [-> | Hji];
          [exact Hne | apply Hall; lia].
      * intros Hall j Hj. apply Hall. lia.
Qed.

(** [operator==] on two arrays whose elements are alive gives an answer,
    and the answer is [true] exactly when the lengths are the same and no
    element of the one differs, by the [operator!=] of [T], from the
    element of the other at the same index. *)
Theorem array_operator_eq_spec (w : World) (lhs rhs : Array)
    (x y : Z -> T)
    (Hx : forall i, 0 <= i < my_FixedSizeArray.length lhs ->
            bsl.objects w
              !! r_addr (my_FixedSizeArray.operator_subscript lhs i)
            = Some (x i))
    (Hy : forall i, 0 <= i < my_FixedSizeArray.length rhs ->
            bsl.objects w
              !! r_addr (my_FixedSizeArray.operator_subscript rhs i)
            = Some (y i)) :
  exists b : bool,
    my_FixedSizeArray.operator_eq lhs rhs w = Some b
    /\ (b = true <->
        my_FixedSizeArray.length lhs = my_FixedSizeArray.length rhs
        /\ forall i, 0 <= i < my_FixedSizeArray.length lhs ->
             T_operator_ne (x i) (y i) = false).
Proof.
  unfold my_FixedSizeArray.operator_eq.
  destruct (Z.eqb_spec (my_FixedSizeArray.length lhs)
              (my_FixedSizeArray.length rhs)) as [Hlen | Hlen]; simpl.
  - destruct (elements_equal_spec w lhs rhs x y
                (Z.to_nat (my_FixedSizeArray.length lhs)) 0)
      as (b & Hrun & Hb).
    { intros j Hj. apply Hx. lia. }
    { intros j Hj. apply Hy. rewrite <- Hlen. lia. }
    exists b. split; [exact Hrun |]. rewrite Hb. split.
    + intros Hall. split; [exact Hlen |].
      intros i Hi. apply Hall. lia.
    + intros [_ Hall] j Hj. apply Hall. lia.
  - exists false. split; [reflexivity |].
    split; [discriminate | intros [Heq _]; contradiction].
Qed.


(** The destructor of the array, whatever its length: it ends the life of
    each element, leaves every other object alone, makes the one call of
    [deallocate], with the address of the block, to the mechanism of the
    proxy of the array, and returns. *)
Theorem array_dtor_destroys_and_releases (self : Array) (w : World)
    (obj : bslma.Allocator MState)
    (Hobj : bsl.mechanisms w
              !! p_addr (bsl.d_mechanism (my_FixedSizeArray.allocator self))
            = Some obj) :
  let m := bsl.d_mechanism (my_FixedSizeArray.allocator self) in
  let block : Ptr cv_none void :=
    mkPtr (p_addr (my_FixedSizeArray.d_array self)) in
  exists w' : World,
    my_FixedSizeArray.dtor pf self w = bsl.Normal tt w'
    /\ bsl.mechanisms w'
       = <[p_addr m :=
             bslma.mkAllocator (bslma.m_vptr obj)
               (bslma.v_deallocate (bslma.m_vptr obj) (bslma.m_data obj)
                  block)]> (bsl.mechanisms w)
    /\ bsl.calls w' = bsl.calls w ++ [bsl.CallDeallocate m block]
    /\ (forall i, 0 <= i < my_FixedSizeArray.length self ->
          bsl.objects w'
            !! r_addr (my_FixedSizeArray.operator_subscript self i)
          = None)
    /\ (forall k,
          (forall i, 0 <= i < my_FixedSizeArray.length self ->
             k <> r_addr (my_FixedSizeArray.operator_subscript self i)) ->
          bsl.objects w' !! k = bsl.objects w !! k).
Proof.
  destruct self as [alloc len base].
  unfold my_FixedSizeArray.allocator, my_FixedSizeArray.length,
    my_FixedSizeArray.operator_subscript, my_FixedSizeArray.subscript in *.
  simpl in Hobj. simpl.
  unfold my_FixedSizeArray.dtor. simpl my_FixedSizeArray.d_length.
  simpl my_FixedSizeArray.d_array. simpl my_FixedSizeArray.d_allocator.
  destruct (destroy_loop_spec base (Z.to_nat len) 0 alloc w)
    as (w1 & Hrun & Hmech & Hcalls & Hin & Hout).
  unfold bsl.bind. rewrite Hrun.
  unfold bsl.deallocate. rewrite Hmech, Hobj. simpl.
  eexists. split; [reflexivity |]. simpl.
  rewrite Hcalls.
  split; [reflexivity |]. split; [reflexivity |]. split.
  - intros i Hi. apply Hin. lia.
  - intros k Hk. apply Hout. intros j Hj. apply Hk. lia.
Qed.


End ArrayFacts.

(* ===================================================================== *)
(** ** The further properties at concrete proxies and arrays *)
(* ===================================================================== *)

Section MoreConcrete.

Import Examples ArrayExamples.

Local Abbreviation a2_alloc :=
  (bsl.allocator_ctor_mechanism registry1 int tt countingAlloc).

(** One [int] more than [max_size()] on the 64-bit platform. *)
Lemma allocate_beyond_max_size_witness :
  bsl.max_size unix64 a2_alloc < 2305843009213693952
  /\ bsl.allocate_size (T:=int) unix64 2305843009213693952
     <> 2305843009213693952 * 4
  /\ bsl.allocate unix64 2305843009213693952 null (a2_alloc, world1)
     = bsl.AssertionFailure.
Proof.
  assert (bsl.max_size unix64 a2_alloc < 2305843009213693952) as Hn
    by (apply Z.ltb_lt; vm_compute; reflexivity).
  split; [exact Hn |].
  destruct (allocate_beyond_max_size unix64 a2_alloc 2305843009213693952 Hn)
    as [Hsize Hassert].
  split; [exact Hsize |].
  apply Hassert. reflexivity.
Defined.

Lemma deallocate_forwards_pointer_witness :
  bsl.deallocate (T:=int) (mkPtr 65536) 5 (a2_alloc, world1)
  = bsl.Normal tt
      (a2_alloc,
       world_after_call world1 countingAlloc Counting_ctor
         (mkCounting (-1) 65536)
         (bsl.CallDeallocate countingAlloc (mkPtr 65536))).
Proof.
  refine (deallocate_forwards_pointer a2_alloc world1 (mkPtr 65536) 5
            Counting_ctor _).
  vm_compute. reflexivity.
Defined.

(** A proxy for [int] and a proxy for [Guarded] of the same mechanism. *)
Lemma equal_proxies_deallocate_alike_witness :
  let b := bsl.allocator_ctor_convert Guarded a2_alloc in
  bsl.operator_eq a2_alloc b = true
  /\ mechanism_effect
       (bsl.deallocate (T:=int) (mkPtr 65536) 5 (a2_alloc, world0 int))
     = mechanism_effect
         (bsl.deallocate (T:=Guarded) (mkPtr 65536) 1 (b, world0 Guarded)).
Proof.
  intros b.
  assert (bsl.operator_eq a2_alloc b = true) as Heq by reflexivity.
  split; [exact Heq |].
  refine (equal_proxies_deallocate_alike a2_alloc b (world0 int)
            (world0 Guarded) (mkPtr 65536) (mkPtr 65536) 5 1 Heq _ _ _);
    reflexivity.
Defined.

Lemma allocate_makes_one_call_witness :
  let w' :=
    world_after_call world1 countingAlloc Counting_ctor
      (mkCounting 1 65556) (bsl.CallAllocate countingAlloc 20) in
  bsl.state_after (bsl.allocate unix64 5 null (a2_alloc, world1))
    = Some (a2_alloc, w')
  /\ bsl.calls w'
     = bsl.calls world1
       ++ [bsl.CallAllocate (bsl.d_mechanism a2_alloc)
             (bsl.allocate_size (T:=int) unix64 5)].
Proof.
  intros w'.
  assert (bsl.state_after (bsl.allocate unix64 5 null (a2_alloc, world1))
          = Some (a2_alloc, w')) as Hback by (vm_compute; reflexivity).
  split; [exact Hback |].
  exact (proj2 (allocate_makes_one_call unix64 a2_alloc a2_alloc world1 w' 5
                  null Hback)).
Defined.


Lemma int_builtin_amp : operator_amp (T:=int) = None.
Proof. reflexivity. Qed.

(** An array of three [int]s through a proxy of [countingAlloc]: the block
    is at 65536, the elements at 65536, 65540 and 65544 are zero, and the
    [int] at 1000 is as before. *)
Lemma array_ctor_builds_elements_witness :
  exists w' : bsl.World int,
    my_FixedSizeArray.ctor unix64 3 a2_alloc world1
    = bsl.Normal
        {| my_FixedSizeArray.d_allocator := a2_alloc;
           my_FixedSizeArray.d_length := 3;
           my_FixedSizeArray.d_array := mkPtr 65536 |} w'
    /\ bsl.calls w' = [bsl.CallAllocate countingAlloc 12]
    /\ bsl.objects w' !! 65536 = Some 0
    /\ bsl.objects w' !! 65544 = Some 0
    /\ bsl.objects w' !! 1000 = Some 1.
Proof.
  destruct (array_ctor_builds_elements unix64 int_builtin_amp 3 a2_alloc
              world1 Counting_ctor (mkPtr 65536) (mkCounting 1 65548))
    as (w' & Hrun & _ & Hcalls & Hin & Hout).
  - split; [lia | apply Z.leb_le; vm_compute; reflexivity].
  - vm_compute. reflexivity.
  - reflexivity.
  - exists w'. split; [exact Hrun |]. split; [exact Hcalls |].
    split; [exact (Hin 0 ltac:(lia)) |].
    split; [exact (Hin 2 ltac:(lia)) |].
    rewrite Hout; [reflexivity |].
    intros i Hi. simpl. lia.
Defined.

(** A proxy of the exhausted mechanism at 12288. *)
Lemma array_ctor_propagates_exception_witness :
  let alloc := bsl.allocator_ctor_mechanism registry1 int tt (mkPtr 12288) in
  my_FixedSizeArray.ctor unix64 3 alloc world1
  = bsl.Exceptional
      (world_after_call world1 (mkPtr 12288)
         (bslma.mkAllocator Exhausted_vtable (mkCounting 0 0))
         (mkCounting 0 0) (bsl.CallAllocate (mkPtr 12288) 12)).
Proof.
  intros alloc.
  refine (array_ctor_propagates_exception unix64 3 alloc world1
            (bslma.mkAllocator Exhausted_vtable (mkCounting 0 0))
            (mkCounting 0 0) _ _ _).
  - split; [lia | apply Z.leb_le; vm_compute; reflexivity].
  - vm_compute. reflexivity.
  - reflexivity.
Defined.

Lemma a1_alive (i : Z) :
  0 <= i < 2 ->
  bsl.objects world1 !! r_addr (my_FixedSizeArray.operator_subscript a1 i)
  = Some (a1_values i).
Proof.
  intros Hi. assert (i = 0 \/ i = 1) as [-> | ->] by lia; reflexivity.
Qed.

(** [a1] compared with itself. *)
Lemma array_operator_eq_spec_witness :
  exists b : bool,
    my_FixedSizeArray.operator_eq a1 a1 world1 = Some b
    /\ (b = true <->
        my_FixedSizeArray.length a1 = my_FixedSizeArray.length a1
        /\ forall i, 0 <= i < my_FixedSizeArray.length a1 ->
             T_operator_ne (a1_values i) (a1_values i) = false).
Proof.
  exact (array_operator_eq_spec world1 a1 a1 a1_values a1_values
           a1_alive a1_alive).
Defined.



(** The destructor of [a1]: the two [int]s are gone and the default
    mechanism has been given the block at 1000. *)
Lemma array_dtor_destroys_and_releases_witness :
  exists w' : bsl.World int,
    my_FixedSizeArray.dtor unix64 a1 world1 = bsl.Normal tt w'
    /\ bsl.calls w' = [bsl.CallDeallocate (mkPtr 4096) (mkPtr 1000)]
    /\ bsl.objects w' !! 1000 = None
    /\ bsl.objects w' !! 1004 = None.
Proof.
  destruct (array_dtor_destroys_and_releases unix64 int_builtin_amp a1
              world1
              (bslma.mkAllocator Counting_vtable (mkCounting 0 131072)))
    as (w' & Hrun & _ & Hcalls & Hin & _).
  - vm_compute. reflexivity.
  - exists w'. split; [exact Hrun |]. split; [exact Hcalls |].
    split; [exact (Hin 0 ltac:(simpl; lia)) |].
    exact (Hin 1 ltac:(simpl; lia)).
Defined.


(** [main] of the usage example, by evaluation: [a1] of five [int]s with
    the default mechanism, [a2] copied from it with [countingAlloc];
    [a1 == a2], the proxies differ, and one block of [countingAlloc] is
    outstanding. *)
Example usage_main :
  let default := bsl.allocator_ctor registry1 int tt in
  exists (a1 a2 : my_FixedSizeArray.t int) (w1 w2 : bsl.World int),
    my_FixedSizeArray.ctor unix64 5 default world1 = bsl.Normal a1 w1
    /\ my_FixedSizeArray.length a1 = 5
    /\ bsl.operator_eq_mechanism_l (const_cast cv_const (registry1 tt))
         (my_FixedSizeArray.allocator a1) = true
    /\ my_FixedSizeArray.ctor_copy unix64 a1 a2_alloc w1 = bsl.Normal a2 w2
    /\ my_FixedSizeArray.operator_eq a1 a2 w2 = Some true
    /\ bsl.operator_ne (my_FixedSizeArray.allocator a1)
         (my_FixedSizeArray.allocator a2) = true
    /\ bsl.operator_eq_mechanism_l (const_cast cv_const countingAlloc)
         (my_FixedSizeArray.allocator a2) = true
    /\ blocksOutstanding_at w2 8192 = Some 1.
Proof.
  intros default. eexists _, _, _, _.
  split; [vm_compute; reflexivity |].
  split; [reflexivity |]. split; [reflexivity |].
  split; [vm_compute; reflexivity |].
  repeat split; vm_compute; reflexivity.
Qed.

End MoreConcrete.
